(** * GADMA: the genetic-algorithm engine and its pool coordinator

    A shallow embedding of [gadma/genetic_algorithm.py] (class [GA]) and
    [gadma/core.py] (worker entry point, progress report, supervisory loop),
    together with the properties of the design document that concern them.

    Conventions of the embedding.
    - Python objects live in a heap of cells addressed by locations; an
      attribute or a dictionary entry holds a location, so that aliasing and
      [copy.deepcopy] are visible.
    - Finite floats (fitness values, wall-clock durations) are idealised as
      rationals [Q], their sums exact.  The tolerance of the display
      precision is a real and [math.log] a parameter, within a stated error
      of the decimal logarithm.
    - A class derived from [GA] is the table of the functions it overrides;
      a call on [self] looks there first.
    - Fallible code returns [result]; a Python exception is [Raise e].
    - Randomness and the clock are oracles indexed by the number of draws. *)

From Stdlib Require Import ZArith QArith Qround Lqa Reals Lra List Ascii String.
From Stdlib Require Import Permutation Sorted Lia.
From stdpp Require Import gmap strings list fin_maps pretty.

Local Open Scope Z_scope.

(* ===================================================================== *)
(** * Python runtime: exceptions, results, arithmetic                     *)
(* ===================================================================== *)

Module Py.

Inductive exn_class :=
| TypeError | ValueError | ZeroDivisionError | AttributeError
| KeyError | RuntimeError | OSError.

(** An exception instance: its class and [str(e)]. *)
Record exn := Exn { exn_cls : exn_class; exn_str : string }.

Inductive result (A : Type) :=
| Ok (a : A)
| Raise (e : exn).
Arguments Ok {A} a.
Arguments Raise {A} e.

Definition bind {A B} (r : result A) (k : A -> result B) : result B :=
  match r with
  | Ok a => k a
  | Raise e => Raise e
  end.

Definition is_ok {A} (r : result A) : bool :=
  match r with Ok _ => true | Raise _ => false end.

(** [a > b] and [a < b] on floats. *)
Definition Qgtb (a b : Q) : bool := negb (Qle_bool a b).
Definition Qltb (a b : Q) : bool := negb (Qle_bool b a).

(** [int(x)] and the [%d] conversion: truncation toward zero. *)
Definition int_of_Q (q : Q) : Z :=
  if Qle_bool 0 q then Qfloor q else Qceiling q.

(** [x % m] on floats, for a positive modulus. *)
Definition Qfmod (x m : Q) : Q := (x - m * inject_Z (Qfloor (x / m)))%Q.

(** [x / n] with a float numerator: Python raises on a zero divisor. *)
Definition div_float_int (x : Q) (n : Z) : result Q :=
  if n =? 0
  then Raise (Exn ZeroDivisionError "float division by zero")
  else Ok (x / inject_Z n)%Q.

(** [os.path.join a b]. *)
Definition starts_with_slash (s : string) : bool :=
  match s with
  | String c _ => Ascii.eqb c "/"%char
  | EmptyString => false
  end.

Fixpoint ends_with_slash (s : string) : bool :=
  match s with
  | EmptyString => false
  | String c EmptyString => Ascii.eqb c "/"%char
  | String _ s' => ends_with_slash s'
  end.

Definition path_join (a b : string) : string :=
  if starts_with_slash b then b
  else match a with
       | EmptyString => b
       | _ => if ends_with_slash a then (a ++ b)%string
              else (a ++ "/" ++ b)%string
       end.

(** The [%(hours)03d:%(minutes)02d:%(seconds)02d] fields of a duration. *)
Definition hms (s : Q) : Z * Z * Z :=
  (int_of_Q (s / 3600), int_of_Q (Qfmod s 3600 / 60), int_of_Q (Qfmod s 60)).

End Py.

#[global] Instance result_ret : MRet Py.result := fun A a => Py.Ok a.
#[global] Instance result_bind : MBind Py.result := fun A B k r => Py.bind r k.

(* ===================================================================== *)
(** * gadma/genetic_algorithm.py: class GA                                *)
(* ===================================================================== *)

Module GA.
Import Py.

(** ** Heap of candidate models *)

Abbreviation loc := nat.

(** A Python reference: [None] or the address of an object. *)
Abbreviation pyref := (option loc).

(** Modelled from the spec: [gadma.demographic_model.Demographic_model] is
    not among the sources.  A candidate is a demographic model bound to a
    parameter-value assignment plus a cached fitness value; the assignment
    is a mutable list object of its own, referenced from the model object. *)
Inductive obj :=
| OList (xs : list Q)
| OModel (values : loc) (fitness : Q).

Definition alloc (h : list obj) (o : obj) : list obj * loc :=
  (h ++ [o], length h).

(** [m.get_fitness_func_value()] *)
Definition get_fitness_func_value (h : list obj) (m : pyref) : result Q :=
  match m with
  | None => Raise (Exn AttributeError "NoneType has no get_fitness_func_value")
  | Some l =>
      match h !! l with
      | Some (OModel _ f) => Ok f
      | _ => Raise (Exn AttributeError "object has no get_fitness_func_value")
      end
  end.

(** [copy.deepcopy(m)]: every object reachable from [m] is duplicated. *)
Definition deepcopy (h : list obj) (m : pyref) : result (list obj * pyref) :=
  match m with
  | None => Ok (h, None)
  | Some l =>
      match h !! l with
      | Some (OList xs) =>
          let '(h1, l') := alloc h (OList xs) in Ok (h1, Some l')
      | Some (OModel v f) =>
          match h !! v with
          | Some (OList xs) =>
              let '(h1, v') := alloc h (OList xs) in
              let '(h2, l') := alloc h1 (OModel v' f) in
              Ok (h2, Some l')
          | _ => Raise (Exn RuntimeError "dangling reference")
          end
      | None => Raise (Exn RuntimeError "dangling reference")
      end
  end.

(** The value of a candidate: its parameter values and its fitness. *)
Definition view (h : list obj) (m : pyref) : option (list Q * Q) :=
  match m with
  | None => None
  | Some l =>
      match h !! l with
      | Some (OModel v f) =>
          match h !! v with
          | Some (OList xs) => Some (xs, f)
          | _ => None
          end
      | _ => None
      end
  end.

(** The heap cells that make up a candidate (its mutable state). *)
Definition cells (h : list obj) (m : pyref) : list loc :=
  match m with
  | None => []
  | Some l =>
      match h !! l with
      | Some (OModel v _) => [l; v]
      | Some (OList _) => [l]
      | None => []
      end
  end.

(** ** Engine state *)

Record GA := mkGA {
  prefix : option string;
  output_dir : string;            (* params.output_dir *)
  is_custom_model : bool;         (* params.initial_structure is None *)
  cur_iteration : Z;
  first_iteration : Z;
  work_time : Q;
  model : pyref;
  best_model : pyref;
  out_dir : option string;
  log_file : option string
}.

(** Arguments of the calls to [support.write_to_file]. *)
Inductive log_line :=
| LText (file : option string) (text : string)
| LIter (file : option string) (iteration : Z) (t : Z * Z * Z)
        (value : Q) (m : pyref).

(** What lies outside the engine object: the heap, the oracles' position,
    the file system and the log. *)
Record world := mkWorld {
  heap : list obj;
  draws : nat;
  dirs : list string;
  files : list string;
  log : list log_line
}.

Definition set_model (g : GA) (m : pyref) : GA :=
  mkGA (prefix g) (output_dir g) (is_custom_model g) (cur_iteration g)
       (first_iteration g) (work_time g) m (best_model g)
       (out_dir g) (log_file g).

Definition set_best_model (g : GA) (m : pyref) : GA :=
  mkGA (prefix g) (output_dir g) (is_custom_model g) (cur_iteration g)
       (first_iteration g) (work_time g) (model g) m
       (out_dir g) (log_file g).

Definition set_work_time (g : GA) (t : Q) : GA :=
  mkGA (prefix g) (output_dir g) (is_custom_model g) (cur_iteration g)
       (first_iteration g) t (model g) (best_model g)
       (out_dir g) (log_file g).

Definition set_cur_iteration (g : GA) (i : Z) : GA :=
  mkGA (prefix g) (output_dir g) (is_custom_model g) i
       (first_iteration g) (work_time g) (model g) (best_model g)
       (out_dir g) (log_file g).

Definition set_out_dir (g : GA) (d : option string) : GA :=
  mkGA (prefix g) (output_dir g) (is_custom_model g) (cur_iteration g)
       (first_iteration g) (work_time g) (model g) (best_model g)
       d (log_file g).

Definition set_log_file (g : GA) (f : option string) : GA :=
  mkGA (prefix g) (output_dir g) (is_custom_model g) (cur_iteration g)
       (first_iteration g) (work_time g) (model g) (best_model g)
       (out_dir g) f.

Definition set_heap (w : world) (h : list obj) : world :=
  mkWorld h (draws w) (dirs w) (files w) (log w).

(** [support.write_to_file(...)]: the call is recorded with its arguments. *)
Definition write_to_file (w : world) (l : log_line) : world :=
  mkWorld (heap w) (draws w) (dirs w) (files w) (log w ++ [l]).

Definition add_once (s : string) (l : list string) : list string :=
  if existsb (String.eqb s) l then l else s :: l.

(** [GA.__init__(params, prefix)] *)
Definition init (params_output_dir : string) (initial_structure_is_None : bool)
    (prefix : option string) : GA :=
  mkGA prefix params_output_dir initial_structure_is_None
       0 0 0%Q None None None None.

(** [GA.mean_time] *)
Definition mean_time (g : GA) : result Q :=
  div_float_int (work_time g) (cur_iteration g + 1 - first_iteration g).

(** [GA.is_stoped] *)
Definition is_stoped (g : GA) : bool := false.

(** ** Attribute lookup and calls on a GA instance *)

(** The functions in the class body of [GA]. *)
Inductive method :=
| M_pickle_final_models | M_get_random_model | M_mean_time | M_best_model
| M_best_fitness_value | M_is_stoped | M_run_one_iteration | M_run
| M_init.

Inductive value :=
| VNone
| VBool (b : bool)
| VInt (z : Z)
| VFloat (q : Q)
| VStr (s : string)
| VRef (l : loc)         (* a Demographic_model instance *)
| VBound (m : method)    (* a function of the class bound to the instance *)
| VOpaque                (* an object this development does not look into *).

Definition value_of_ref (m : pyref) : value :=
  match m with None => VNone | Some l => VRef l end.

Definition value_of_str (s : option string) : value :=
  match s with None => VNone | Some x => VStr x end.

(** The class namespace: one entry per [def] in the class body. *)
Definition class_dict : gmap string method :=
  list_to_map
    [("pickle_final_models"%string, M_pickle_final_models);
     ("get_random_model"%string, M_get_random_model);
     ("mean_time"%string, M_mean_time);
     ("best_model"%string, M_best_model);
     ("best_fitness_value"%string, M_best_fitness_value);
     ("is_stoped"%string, M_is_stoped);
     ("run_one_iteration"%string, M_run_one_iteration);
     ("run"%string, M_run);
     ("__init__"%string, M_init)].

(** The other names bound in the class body: [max_mutation_rate = 1.0]. *)
Definition class_values : gmap string value :=
  list_to_map [("max_mutation_rate"%string, VFloat 1%Q)].

(** The instance namespace: one entry per [self.x = ...] of [__init__];
    the later assignments of [run] and [run_one_iteration] overwrite
    entries that exist already. *)
Definition instance_dict (g : GA) : gmap string value :=
  list_to_map
    [("params"%string, VOpaque);
     ("prefix"%string, value_of_str (prefix g));
     ("is_custom_model"%string, VBool (is_custom_model g));
     ("one_initial_model"%string, VOpaque);
     ("ll_precision"%string, VOpaque);
     ("cur_iteration"%string, VInt (cur_iteration g));
     ("first_iteration"%string, VInt (first_iteration g));
     ("work_time"%string, VFloat (work_time g));
     ("model"%string, value_of_ref (model g));
     ("best_model"%string, value_of_ref (best_model g));
     ("out_dir"%string, value_of_str (out_dir g));
     ("log_file"%string, value_of_str (log_file g));
     ("best_model_by_aic"%string, VNone)].

(** [getattr(ga, name)]: functions are non-data descriptors, so the
    instance namespace is searched before the class namespace.  The names
    that every object inherits ([__class__], [__dict__], ...) are not
    modelled. *)
Definition getattr (g : GA) (name : string) : result value :=
  match instance_dict g !! name with
  | Some v => Ok v
  | None =>
      match class_dict !! name with
      | Some m => Ok (VBound m)
      | None =>
          match class_values !! name with
          | Some v => Ok v
          | None => Raise (Exn AttributeError "GA object has no such attribute")
          end
      end
  end.

(** [v()]: only bound methods are callable; a model instance, [None] and
    the numbers are not (Demographic_model defines no [__call__]). *)
Definition call (invoke : method -> result value) (v : value) : result value :=
  match v with
  | VBound m => invoke m
  | _ => Raise (Exn TypeError "object is not callable")
  end.

(** [v.get_fitness_func_value()] *)
Definition fitness_of_value (h : list obj) (v : value) : result value :=
  match v with
  | VRef l => f ← get_fitness_func_value h (Some l); Ok (VFloat f)
  | _ => Raise (Exn AttributeError "object has no get_fitness_func_value")
  end.

Definition recursion_limit : nat := 1000.

(** The bodies of the argument-free, read-only methods.  [depth] is what
    is left of the interpreter's recursion limit.  The methods that change
    the engine are [run_one_iteration] and [step] below. *)
Fixpoint invoke (depth : nat) (g : GA) (h : list obj) (m : method)
  : result value :=
  match depth with
  | O => Raise (Exn RuntimeError "maximum recursion depth exceeded")
  | S d =>
      match m with
      | M_mean_time => q ← mean_time g; Ok (VFloat q)
      | M_best_model => getattr g "best_model"
      | M_best_fitness_value =>
          f ← getattr g "best_model";
          r ← call (invoke d g h) f;
          fitness_of_value h r
      | M_is_stoped => Ok (VBool (is_stoped g))
      | _ => Raise (Exn TypeError "method is not a read-only call")
      end
  end.

(** [ga.name()] *)
Definition call_method (g : GA) (h : list obj) (name : string) : result value :=
  f ← getattr g name;
  call (invoke recursion_limit g h) f.

Section Engine.

(** The [n]-th model drawn by [Demographic_model(params, structure)]: its
    parameter values and the fitness it reports, or the exception that the
    simulator behind it raises. *)
Variable sample : nat -> result (list Q * Q).
(** [stop - start] of the [n]-th timed iteration. *)
Variable elapsed : nat -> Q.

(** [GA.get_random_model] *)
Definition get_random_model (w : world) : result (world * pyref) :=
  '(xs, f) ← sample (draws w);
  let '(h1, v) := alloc (heap w) (OList xs) in
  let '(h2, l) := alloc h1 (OModel v f) in
  Ok (mkWorld h2 (S (draws w)) (dirs w) (files w) (log w), Some l).

(** [GA.run_one_iteration].  The sum of line 112 is exact here; the
    interpreter rounds it to a double. *)
Definition run_one_iteration (g : GA) (w : world) : result (GA * world) :=
  let n := draws w in
  '(w1, new_model) ← get_random_model w;
  let g1 := set_model g new_model in
  let g2 := set_work_time g1 (work_time g1 + elapsed n)%Q in
  let s := work_time g2 in
  let t := hms s in
  f ← get_fitness_func_value (heap w1) (model g2);
  Ok (g2, write_to_file w1
            (LIter (log_file g2) (cur_iteration g2) t (- f)%Q (model g2))).

(** ** [GA.run], statement by statement *)

(** Program points of [run], named by the source line about to execute. *)
Inductive pc := L125 | L139 | L140 | L147 | L150 | L151 | L158.

Record cfg := mkCfg {
  self : GA;
  wld : world;
  shared_dict : option (gmap (option string) pyref);
  at_line : pc
}.

Inductive status :=
| Running (c : cfg)
| Returned (v : pyref) (c : cfg)
| Raised (e : exn).

(** Lines 125-137: output directory, log file, start line.  The file system
    is taken to accept both calls: the cases in which [os.makedirs] or
    [open] raise (a file where the directory should be, no permission) are
    not modelled. *)
Definition open_log (g : GA) (w : world) : GA * world :=
  match prefix g with
  | Some p =>
      let d := path_join (output_dir g) p in
      let f := path_join d "GADMA_GA.log" in
      (set_log_file (set_out_dir g (Some d)) (Some f),
       mkWorld (heap w) (draws w) (add_once d (dirs w))
               (add_once f (files w)) (log w))
  | None => (set_log_file g None, w)
  end.

(** Lines 141-144 and 153-156: publication into the shared dictionary. *)
Definition publish (g : GA) (w : world)
    (sd : option (gmap (option string) pyref))
  : result (world * option (gmap (option string) pyref)) :=
  match sd with
  | None => Ok (w, None)
  | Some d =>
      '(h, cp) ← deepcopy (heap w) (best_model g);
      Ok (set_heap w h, Some (<[prefix g := cp]> d))
  end.

(** Lines 140-144 and 152-156: a new best model. *)
Definition update_best (g : GA) (w : world)
    (sd : option (gmap (option string) pyref))
  : result (GA * world * option (gmap (option string) pyref)) :=
  '(h, b) ← deepcopy (heap w) (model g);
  let g' := set_best_model g b in
  '(w', sd') ← publish g' (set_heap w h) sd;
  Ok (g', w', sd').

(** Lines 151-156: the comparison and the conditional update. *)
Definition compare_and_update (g : GA) (w : world)
    (sd : option (gmap (option string) pyref))
  : result (GA * world * option (gmap (option string) pyref)) :=
  fb ← get_fitness_func_value (heap w) (best_model g);
  fm ← get_fitness_func_value (heap w) (model g);
  if Qgtb fb fm then update_best g w sd else Ok (g, w, sd).

Definition step (c : cfg) : status :=
  match at_line c with
  | L125 =>
      let '(g, w) := open_log (self c) (wld c) in
      let w' := write_to_file w (LText (log_file g) "--Start random pipeline--") in
      Running (mkCfg g w' (shared_dict c) L139)
  | L139 =>
      match run_one_iteration (self c) (wld c) with
      | Ok (g, w) => Running (mkCfg g w (shared_dict c) L140)
      | Raise e => Raised e
      end
  | L140 =>
      match update_best (self c) (wld c) (shared_dict c) with
      | Ok (g, w, sd) => Running (mkCfg g w sd L147)
      | Raise e => Raised e
      end
  | L147 =>
      let g := self c in
      Running (mkCfg (set_cur_iteration g (cur_iteration g + 1))
                     (wld c) (shared_dict c) L150)
  | L150 =>
      (* while True: *)
      match run_one_iteration (self c) (wld c) with
      | Ok (g, w) => Running (mkCfg g w (shared_dict c) L151)
      | Raise e => Raised e
      end
  | L151 =>
      match compare_and_update (self c) (wld c) (shared_dict c) with
      | Ok (g, w, sd) => Running (mkCfg g w sd L150)
      | Raise e => Raised e
      end
  | L158 => Returned (best_model (self c)) c
  end.

(** [n] statements of [run] from configuration [c]. *)
Fixpoint exec (n : nat) (c : cfg) : status :=
  match n with
  | O => Running c
  | S n' =>
      match step c with
      | Running c' => exec n' c'
      | s => s
      end
  end.

(** The configuration in which [run] is entered. *)
Definition entry (g : GA) (w : world)
    (sd : option (gmap (option string) pyref)) : cfg :=
  mkCfg g w sd L125.

(** [GA.run(shared_dict)] entered on engine [g] in world [w]. *)
Definition run (fuel : nat) (g : GA) (w : world)
    (sd : option (gmap (option string) pyref)) : status :=
  exec fuel (entry g w sd).

(** The configuration at the head of the loop once the first iteration and
    [i] further ones are done: after iteration [i], counting from 0. *)
Definition after_iteration (i : nat) (g : GA) (w : world)
    (sd : option (gmap (option string) pyref)) : status :=
  run (4 + 2 * i) g w sd.

End Engine.

(** ** Vocabulary for the properties of [run] *)

(** The heap only grows: [h'] extends [h]. *)
Definition heap_le (h h' : list obj) : Prop := exists k, h' = h ++ k.

(** [m] refers to a complete candidate. *)
Definition valid (h : list obj) (m : pyref) : Prop :=
  exists xs f, view h m = Some (xs, f).

(** The heap after a deep copy of a candidate with value [(xs, f)]. *)
Definition copied (h : list obj) (xs : list Q) (f : Q) : list obj :=
  h ++ [OList xs; OModel (length h) f].

(** The engine and the world after an iteration that drew [(xs, f)]. *)
Definition iterated (elapsed : nat -> Q) (g : GA) (w : world)
    (xs : list Q) (f : Q) : GA * world :=
  (set_work_time (set_model g (Some (S (length (heap w)))))
                 (work_time g + elapsed (draws w))%Q,
   mkWorld (copied (heap w) xs f) (S (draws w)) (dirs w) (files w)
           (log w ++ [LIter (log_file g) (cur_iteration g)
                            (hms (work_time g + elapsed (draws w))%Q)
                            (- f)%Q (Some (S (length (heap w))))])).

(** The engine, the world and the registry after the best model was
    replaced by a candidate with value [(xs, f)]. *)
Definition updated (g : GA) (w : world)
    (sd : option (gmap (option string) pyref)) (xs : list Q) (f : Q)
  : GA * world * option (gmap (option string) pyref) :=
  let h1 := copied (heap w) xs f in
  (set_best_model g (Some (S (length (heap w)))),
   match sd with
   | None => set_heap w h1
   | Some _ => set_heap w (copied h1 xs f)
   end,
   match sd with
   | None => None
   | Some d => Some (<[prefix g := Some (S (length h1))]> d)
   end).

(** What holds of the references at each program point of [run]. *)
Definition well_formed (c : cfg) : Prop :=
  match at_line c with
  | L125 | L139 => True
  | L140 => valid (heap (wld c)) (model (self c))
  | L147 | L150 => valid (heap (wld c)) (best_model (self c))
  | L151 => valid (heap (wld c)) (best_model (self c))
            /\ valid (heap (wld c)) (model (self c))
  | L158 => False
  end.

(** The iteration indices passed to [support.write_to_file]. *)
Fixpoint iterations_logged (l : list log_line) : list Z :=
  match l with
  | [] => []
  | LIter _ i _ _ _ :: l' => i :: iterations_logged l'
  | LText _ _ :: l' => iterations_logged l'
  end.

(** The fitness of the best model of a configuration. *)
Definition best_fitness (c : cfg) : result Q :=
  get_fitness_func_value (heap (wld c)) (best_model (self c)).

(** The program point reached by the [n]-th statement. *)
Definition line_at (n : nat) : pc :=
  match n with
  | 0%nat => L125
  | 1%nat => L139
  | 2%nat => L140
  | 3%nat => L147
  | _ => if Nat.even n then L150 else L151
  end.

(** The counter and the logged indices at each program point, for a run
    entered with counter [i0] and logged indices [its0]. *)
Definition counted (i0 : Z) (its0 : list Z) (c : cfg) : Prop :=
  match at_line c with
  | L125 | L139 =>
      cur_iteration (self c) = i0 /\
      iterations_logged (log (wld c)) = its0
  | L140 | L147 =>
      cur_iteration (self c) = i0 /\
      iterations_logged (log (wld c)) = its0 ++ [i0]
  | L150 | L151 =>
      cur_iteration (self c) = i0 + 1 /\
      exists k, iterations_logged (log (wld c)) = its0 ++ i0 :: repeat (i0 + 1) k
  | L158 => False
  end.

(** The program points at which [best_model] has been assigned. *)
Definition looping (c : cfg) : Prop :=
  at_line c = L147 \/ at_line c = L150 \/ at_line c = L151.

(** ** A sample run *)

(** A simulator whose successive models have fitness 5, 7, 5, 3, 4, 3, 1
    and 9 from then on, and a clock that counts half a second for each
    iteration. *)
Definition demo_sample (n : nat) : result (list Q * Q) :=
  Ok ([inject_Z (Z.of_nat n)], nth n [5; 7; 5; 3; 4; 3; 1]%Q 9%Q).

Definition demo_elapsed (n : nat) : Q := 1 # 2.

Definition demo_engine : GA := init "out" true (Some "1"%string).

Definition empty_world : world := mkWorld [] 0 [] [] [].

(** The configuration of the sample run after [n] statements. *)
Definition demo_cfg (n : nat) : cfg :=
  match exec demo_sample demo_elapsed n
             (entry demo_engine empty_world (Some ∅)) with
  | Running c => c
  | _ => entry demo_engine empty_world (Some ∅)
  end.

End GA.

(* ===================================================================== *)
(** * Demographic model: fixing and unfixing variables                    *)
(* ===================================================================== *)

Module Model.
Import Py.

Inductive kind := Continuous | Discrete.

(** Modelled from the spec: the variable classes are not among the sources
    (only [tests/test_variables.py] is).  A variable is identified by its
    name together with its domain kind. *)
Record variable := mkVar { name : string; var_kind : kind }.

(** A value a variable can be fixed at: a number or a dynamics tag. *)
Inductive fixed_value := Num (q : Q) | Tag (s : string).

Definition kind_eqb (a b : kind) : bool :=
  match a, b with
  | Continuous, Continuous | Discrete, Discrete => true
  | _, _ => false
  end.

Definition var_eqb (a b : variable) : bool :=
  String.eqb (name a) (name b) && kind_eqb (var_kind a) (var_kind b).

(** Modelled from the spec: [EpochDemographicModel] is not among the sources
    (only [tests/test_models.py] is).  The model keeps the ordered list of
    its distinct variables and an overlay from fixed variables to the value
    each is held at. *)
Record model := mkModel {
  variables : list variable;
  fixed_vars : list (variable * fixed_value)
}.

Definition is_member (v : variable) (m : model) : bool :=
  existsb (var_eqb v) (variables m).

Definition is_fixed (v : variable) (m : model) : bool :=
  existsb (fun e => var_eqb v (fst e)) (fixed_vars m).

Definition drop (v : variable) (l : list (variable * fixed_value))
  : list (variable * fixed_value) :=
  filter (fun e => negb (var_eqb v (fst e))) l.

(** Modelled from the spec: [fix_variable(var, value)] marks [var] as held
    constant at [value]; it fails with an error if [var] is not a member of
    the model's variable set; re-fixing overwrites the stored value. *)
Definition fix_variable (v : variable) (x : fixed_value) (m : model)
  : result unit * model :=
  if is_member v m
  then (Ok tt, mkModel (variables m) ((v, x) :: drop v (fixed_vars m)))
  else (Raise (Exn ValueError "variable is not in the model"), m).

(** Modelled from the spec: [unfix_variable(var)]; unfixing a variable that
    is not currently fixed fails with an error. *)
Definition unfix_variable (v : variable) (m : model) : result unit * model :=
  if is_fixed v m
  then (Ok tt, mkModel (variables m) (drop v (fixed_vars m)))
  else (Raise (Exn ValueError "variable is not fixed"), m).

End Model.

(* ===================================================================== *)
(** * Display precision                                                   *)
(* ===================================================================== *)

Module Precision.
Import Py.
Local Open Scope R_scope.

(** [int(x)] on a float: truncation toward zero. *)
Definition int_of_R (x : R) : Z :=
  if Rle_dec 0 x then Zfloor x else Zceil x.

Section FloatLog.

(** [math.log] belongs to the C library, not to the repository, and works
    in double precision: [flog x base] is the number it returns for a
    positive [x].  It is a parameter here; what the theorems assume of it
    is stated by [accurate] below. *)
Variable flog : R -> R -> R.

(** [math.log(x, base)]: a domain error for a non-positive argument. *)
Definition math_log (x base : R) : result R :=
  if Rle_dec x 0
  then Raise (Exn ValueError "math domain error")
  else Ok (flog x base).

(** [GA.__init__], line 57:
    [self.ll_precision = 1 - int(math.log(self.params.epsilon, 10))]. *)
Definition ll_precision (epsilon : R) : result Z :=
  l ← math_log epsilon 10; Ok (1 - int_of_R l)%Z.

(** [core.main], line 132:
    [precision = 1 - int(math.log(params.epsilon, 10))]. *)
Definition precision (epsilon : R) : result Z :=
  l ← math_log epsilon 10; Ok (1 - int_of_R l)%Z.

End FloatLog.

(** The decimal logarithm, and the formula of the design document. *)
Definition log10 (x : R) : R := ln x / ln 10.

Definition documented_precision (epsilon : R) : Z :=
  (1 - Zfloor (log10 epsilon))%Z.

(** The library's logarithm to base 10 is within [delta] of the decimal
    logarithm. *)
Definition accurate (delta : R) (flog : R -> R -> R) : Prop :=
  forall x, 0 < x -> Rabs (flog x 10 - log10 x) <= delta.

(** A logarithm without rounding error. *)
Definition exact_log (x base : R) : R := ln x / ln base.

(** The double written [0.05]: [0x3FA999999999999A]. *)
Definition double_0_05 : R := 3602879701896397 / 72057594037927936.

(** The double written [1000.0]. *)
Definition double_1000 : R := 1000.

(** A logarithm that comes out one unit in the last place of 3 too low at
    1000, as [math.log(1000.0, 10)] does: [2.9999999999999996]. *)
Definition low_log (x base : R) : R :=
  ln x / ln base - / 2251799813685248.

End Precision.

(* ===================================================================== *)
(** * gadma/core.py: worker entry point, progress report, supervision     *)
(* ===================================================================== *)

Module Core.
Import Py GA.

(** The fields of [params] that [core.py] reads. *)
Record params := mkParams {
  p_output_dir : string;
  silence : bool;
  test : bool;
  repeats : nat;
  processes : nat;
  time_for_print : Q;
  matplotlib_available : bool;
  theta_is_None : bool;
  initial_structure_is_None : bool;
  resumed_with_other_structure : bool
}.

(** What the coordinator and the workers do to the outside. *)
Inductive event :=
| WriteLog (file : string) (text : string) (to_stdout : bool)
| WriteTime (file : string) (t : Z * Z * Z) (to_stdout : bool)
| PrintSetOfModels (file : string) (models : list (option string * pyref))
                   (first_col heading : string) (silent : bool)
| PoolTerminate
| SupportError (msg : string).

(** ** [sorted(xs, key=...)] *)

(** Modelled from the spec: the builtin [sorted] is not among the sources.
    The coordinator ranks by fitness ascending, best first, and the first
    seen wins a tie: a stable sort that compares keys with [<] only, as the
    interpreter's sort does. *)
Fixpoint insert_by_key {A} (x : Q * A) (l : list (Q * A)) : list (Q * A) :=
  match l with
  | [] => [x]
  | y :: l' =>
      if Qltb (fst x) (fst y) then x :: y :: l' else y :: insert_by_key x l'
  end.

Definition sort_by_key {A} (l : list (Q * A)) : list (Q * A) :=
  fold_left (fun acc x => insert_by_key x acc) l [].

(** The key of line 81: [x[1].get_fitness_func_value()]. *)
Definition decorate (h : list obj) (x : option string * pyref)
  : result (Q * (option string * pyref)) :=
  k ← get_fitness_func_value h (snd x); Ok (k, x).

Definition sorted (h : list obj) (xs : list (option string * pyref))
  : result (list (option string * pyref)) :=
  ks ← mapM (decorate h) xs; Ok (map snd (sort_by_key ks)).

(** ** [print_best_solution_now] *)

(** [s] is [(datetime.now() - start_time).total_seconds()]; [h] is the heap
    in which the entries of the registry live. *)
Definition print_best_solution_now (s : Q) (h : list obj)
    (shared_dict : gmap (option string) pyref) (p : params)
    (log_file : string) (precision : Z) (draw_model : bool)
  : result (list event) :=
  let all_models_data := shared_dict in
  if decide (all_models_data = ∅) then Ok []
  else
    let all_models := map_to_list all_models_data in
    all_models ← sorted h all_models;
    Ok [WriteTime log_file (hms s) (negb (silence p));
        PrintSetOfModels log_file all_models "Run number"
                         "All best logLL models:" (silence p)].

(** ** [run_genetic_algorithm] *)

Inductive worker_status :=
| WReturn (number : Z) (best : value)
| WRaise (e : exn)
| WBusy.

Section Worker.

Variable sample : nat -> result (list Q * Q).
Variable elapsed : nat -> Q.

(** The try/except of the source is commented out: whatever [GA.run] or the
    final expression raises leaves the function as it is. *)
Definition run_genetic_algorithm (fuel : nat) (number : Z) (p : params)
    (log_file : string) (shared_dict : option (gmap (option string) pyref))
    (w : world) : list event * worker_status :=
  let start :=
    [WriteLog log_file ("Run genetic algorithm number " ++ pretty number)
              (negb (silence p))] in
  let ga_instance :=
    GA.init (p_output_dir p) (initial_structure_is_None p)
            (Some (pretty number)) in
  match GA.run sample elapsed fuel ga_instance w shared_dict with
  | Running _ => (start, WBusy)
  | Raised e => (start, WRaise e)
  | Returned _ c =>
      let finish :=
        start ++
        [WriteLog log_file ("Finish genetic algorithm number " ++ pretty number)
                  (negb (silence p))] in
      match call_method (self c) (heap (wld c)) "best_model" with
      | Ok v => (finish, WReturn number v)
      | Raise e => (finish, WRaise e)
      end
  end.

End Worker.

(** ** The pool and the supervisory loop of [main] *)

(** What [pool_map.get(timeout)] does. *)
Inductive get_outcome :=
| GTimeout
| GKeyboardInterrupt
| GException (e : exn)
| GResults (rs : list (Z * value)).

Fixpoint first_failure (ws : list worker_status) : option exn :=
  match ws with
  | [] => None
  | WRaise e :: _ => Some e
  | _ :: ws' => first_failure ws'
  end.

Fixpoint all_results (ws : list worker_status) : option (list (Z * value)) :=
  match ws with
  | [] => Some []
  | WReturn n v :: ws' =>
      match all_results ws' with
      | Some rs => Some ((n, v) :: rs)
      | None => None
      end
  | _ :: _ => None
  end.

(** [multiprocessing]'s [map_async(...).get(timeout)]: the exception of a
    failed task is raised again in the caller as it is; the results are
    returned once every task has returned; otherwise the wait times out. *)
Definition pool_get (ws : list worker_status) : get_outcome :=
  match first_failure ws with
  | Some e => GException e
  | None =>
      match all_results ws with
      | Some rs => GResults rs
      | None => GTimeout
      end
  end.

(** One wait of the coordinator: what [get] did, and the registry, the heap
    behind it and the seconds since the start at that moment. *)
Record poll := mkPoll {
  got : get_outcome;
  poll_heap : list obj;
  registry : gmap (option string) pyref;
  seconds : Q
}.

Inductive exit :=
| Waiting
| Completed
| Failed
| Cancelled
| Crashed (e : exn).

(** Lines 151-161: the closing messages. *)
Definition closing (p : params) (log_file : string) : list event :=
  [WriteLog log_file "
--Finish pipeline--
" true]
  ++ (if test p then [WriteLog log_file "--Test passed correctly--" true] else [])
  ++ (if theta_is_None p
      then [WriteLog log_file "
You didn't specify theta at the beginning. If you want change it and rescale parameters, please see tutorial.
" true]
      else [])
  ++ (if resumed_with_other_structure p
      then [WriteLog log_file "
You have resumed from another launch. Please, check best AIC model, as information about it was lost.
" true]
      else [])
  ++ [WriteLog log_file "Thank you for using GADMA!" true].

(** Lines 136-165.  Modelled from the spec: [support.error] is not among the
    sources; it surfaces the message as the run's terminal error, so nothing
    follows it. *)
Fixpoint supervise (p : params) (log_file : string) (precision : Z)
    (polls : list poll) : list event * exit :=
  match polls with
  | [] => ([], Waiting)
  | q :: rest =>
      match got q with
      | GResults _ =>
          match print_best_solution_now (seconds q) (poll_heap q) (registry q)
                  p log_file precision (matplotlib_available p) with
          | Ok evs => (evs ++ closing p log_file, Completed)
          | Raise e => ([], Crashed e)
          end
      | GTimeout =>
          match print_best_solution_now (seconds q) (poll_heap q) (registry q)
                  p log_file precision (matplotlib_available p) with
          | Ok evs =>
              let '(evs', x) := supervise p log_file precision rest in
              (evs ++ evs', x)
          | Raise e => ([], Crashed e)
          end
      | GException e => ([PoolTerminate; SupportError (exn_str e)], Failed)
      | GKeyboardInterrupt =>
          ([PoolTerminate; SupportError "KeyboardInterrupt"], Cancelled)
      end
  end.

(** ** Vocabulary for the properties of the coordinator *)

(** [x] comes before [y] in an ascending ranking by fitness. *)
Definition ranked_before (h : list obj) (x y : option string * pyref) : Prop :=
  exists fx fy,
    get_fitness_func_value h (snd x) = Ok fx /\
    get_fitness_func_value h (snd y) = Ok fy /\ (fx <= fy)%Q.

Definition key_le {A} (a b : Q * A) : Prop := (fst a <= fst b)%Q.

(** Every key is the fitness of the entry it decorates. *)
Definition keyed (h : list obj) (kx : Q * (option string * pyref)) : Prop :=
  get_fitness_func_value h (snd (snd kx)) = Ok (fst kx).

(** The registry of the worked example: [w1] at 5.0, [w2] at 2.0, [w3] at
    8.0, and the heap its entries live in. *)
Definition example_heap : list obj :=
  [OList []; OModel 0 5%Q; OList []; OModel 2 2%Q; OList []; OModel 4 8%Q].

Definition example_registry : gmap (option string) pyref :=
  <[Some "w1"%string := Some 1%nat]>
    (<[Some "w2"%string := Some 3%nat]>
       (<[Some "w3"%string := Some 5%nat]> ∅)).

(** The failing worker of the example: the simulator rejects the first
    model it is asked for. *)
Definition failing_sample (n : nat) : result (list Q * Q) :=
  Raise (Exn ValueError "bad model").

Definition example_params : params :=
  mkParams "out" false false 3 3 1%Q false false true false.

End Core.

(* ===================================================================== *)
(** * The trajectory of a run                                             *)
(* ===================================================================== *)

Module Trajectory.
Import Py GA.

(** The candidate that the [k]-th draw produces (an empty candidate where
    the simulator raises). *)
Definition drawn (sample : nat -> result (list Q * Q)) (k : nat) : list Q * Q :=
  match sample k with
  | Ok m => m
  | Raise _ => ([], 0%Q)
  end.

(** Line 151 on values: the incumbent gives way only to a candidate of
    strictly lower fitness. *)
Definition challenge (best : option (list Q * Q)) (c : list Q * Q)
  : option (list Q * Q) :=
  match best with
  | None => Some c
  | Some b => if Qgtb (snd b) (snd c) then Some c else Some b
  end.

(** The incumbent once the candidates were seen in order. *)
Definition best_of (cands : list (list Q * Q)) : option (list Q * Q) :=
  fold_left challenge cands None.

(** Lines 125-147 in one go, for a first draw [(xs, f)]. *)
Definition first_pass (elapsed : nat -> Q) (g : GA) (w : world)
    (sd : option (gmap (option string) pyref)) (xs : list Q) (f : Q) : cfg :=
  let g0 := fst (open_log g w) in
  let w0 := write_to_file (snd (open_log g w))
              (LText (log_file g0) "--Start random pipeline--") in
  let it := iterated elapsed g0 w0 xs f in
  let up := updated (fst it) (snd it) sd xs f in
  mkCfg (set_cur_iteration (fst (fst up)) (cur_iteration (fst (fst up)) + 1))
        (snd (fst up)) (snd up) L150.

(** Lines 150-156 in one go, for a draw [(xs, f)] against an incumbent of
    fitness [fb]. *)
Definition loop_pass (elapsed : nat -> Q) (c : cfg)
    (xs : list Q) (f fb : Q) : cfg :=
  let it := iterated elapsed (self c) (wld c) xs f in
  if Qgtb fb f
  then let up := updated (fst it) (snd it) (shared_dict c) xs f in
       mkCfg (fst (fst up)) (snd (fst up)) (snd up) L150
  else mkCfg (fst it) (snd it) (shared_dict c) L150.

(** The fitness column of the log. *)
Fixpoint values_logged (l : list log_line) : list Q :=
  match l with
  | [] => []
  | LIter _ _ _ v _ :: l' => v :: values_logged l'
  | LText _ _ :: l' => values_logged l'
  end.

(** The file a log line is written to. *)
Definition file_of (l : log_line) : option string :=
  match l with
  | LText f _ => f
  | LIter f _ _ _ _ => f
  end.

(** Lines 125-132: the log file of an engine. *)
Definition expected_log_file (g : GA) : option string :=
  match prefix g with
  | Some p => Some (path_join (path_join (output_dir g) p) "GADMA_GA.log")
  | None => None
  end.

(** The sum of the durations of the draws in [ks], on top of [t0]. *)
Definition total_time (elapsed : nat -> Q) (t0 : Q) (ks : list nat) : Q :=
  fold_left (fun acc k => (acc + elapsed k)%Q) ks t0.

(** The registry of a run that was entered with registry [d] and writes
    under [key]: the other keys are as in [d], and once the best model is
    assigned the entry under [key] has its value. *)
Definition registry_ok (key : option string)
    (d : gmap (option string) pyref) (c : cfg) : Prop :=
  prefix (self c) = key /\
  exists d',
    shared_dict c = Some d' /\
    (forall k, k <> key -> d' !! k = d !! k) /\
    (looping c ->
     exists e xs f,
       d' !! key = Some e /\
       view (heap (wld c)) e = Some (xs, f) /\
       view (heap (wld c)) (best_model (self c)) = Some (xs, f)).

(** The current model and the best model are two complete candidates that
    share no heap cell. *)
Definition separate (c : cfg) : Prop :=
  looping c ->
  valid (heap (wld c)) (model (self c)) /\
  valid (heap (wld c)) (best_model (self c)) /\
  forall l, In l (cells (heap (wld c)) (best_model (self c))) ->
            ~ In l (cells (heap (wld c)) (model (self c))).

(** What the run added to the log of [w]: nothing before the first
    statement; afterwards the start line followed by lines that all go to
    the file [lf], which is the engine's log file. *)
Definition logs_to (out : string) (key lf : option string) (w : world)
    (c : cfg) : Prop :=
  prefix (self c) = key /\ output_dir (self c) = out /\
  exists added,
    log (wld c) = log w ++ added /\
    Forall (fun l => file_of l = lf) added /\
    match at_line c with
    | L125 => added = []
    | _ => log_file (self c) = lf /\
           exists rest, added = LText lf "--Start random pipeline--" :: rest
    end.

(** A simulator that produces two models and then fails. *)
Definition flaky_sample (k : nat) : result (list Q * Q) :=
  if (k <? 2)%nat then demo_sample k
  else Raise (Exn RuntimeError "simulation failed").

(** A world whose heap already holds a candidate, and the configuration of
    the sample run in it after [n] statements. *)
Definition stocked_world : world :=
  mkWorld [OList [1%Q]; OModel 0 4%Q] 0 [] [] [].

Definition stocked_cfg (n : nat) : cfg :=
  match exec demo_sample demo_elapsed n
             (entry demo_engine stocked_world
                    (Some (<[Some "2"%string := Some 1%nat]> ∅))) with
  | Running c => c
  | _ => entry demo_engine stocked_world None
  end.

End Trajectory.

(* ===================================================================== *)
(** * The tasks of the pool                                               *)
(* ===================================================================== *)

Module Pool.
Import Py GA Core.

(** [core.main], lines 128-129: the numbers of the submitted tasks,
    [i + 1 for i in range(params.repeats)]. *)
Definition task_numbers (p : params) : list Z :=
  map (fun i => Z.of_nat i + 1) (seq 0 (repeats p)).

(** The registry key of the worker with a given number:
    [prefix=str(number)] in [run_genetic_algorithm]. *)
Definition worker_key (number : Z) : option string := Some (pretty number).

(** A wait that ends the supervisory loop. *)
Definition ends_loop (q : poll) : bool :=
  match got q with
  | GTimeout => false
  | _ => true
  end.

(** The fitness of a registry entry is [q]. *)
Definition has_fitness (h : list obj) (q : Q) (x : option string * pyref)
  : bool :=
  match get_fitness_func_value h (snd x) with
  | Ok f => Qeq_bool f q
  | Raise _ => false
  end.

(** The key of a decorated entry is [q]. *)
Definition key_is {A} (q : Q) (x : Q * A) : bool := Qeq_bool (fst x) q.

(** A registry snapshot with a tie: [a] and [c] at 5.0, [b] at 2.0. *)
Definition tied_heap : list obj :=
  [OList []; OModel 0 5%Q; OList []; OModel 2 2%Q; OList []; OModel 4 5%Q].

Definition tied_entries : list (option string * pyref) :=
  [(Some "a"%string, Some 1%nat); (Some "b"%string, Some 3%nat);
   (Some "c"%string, Some 5%nat)].

(** The same snapshot as a registry. *)
Definition tied_registry : gmap (option string) pyref :=
  list_to_map tied_entries.

(** A wait that times out while the registry holds [None] under a key. *)
Definition broken_poll : poll :=
  mkPoll GTimeout [] (<[Some "1"%string := None]> ∅) 60%Q.

(** A wait at which a task has failed. *)
Definition failed_poll : poll :=
  mkPoll (GException (Exn ValueError "bad model")) [] ∅ 60%Q.

End Pool.

(* ================================================================== *)
(** * Classes derived from [GA]                                         *)
(* ================================================================== *)

Module Derived.
Import Py GA.

(** A class derived from [GA] and the functions its body defines: what it
    does not define it inherits.  Beside [run] itself the class has two
    functions that bear on the loop of [run]: [is_stoped] ("Check if we
    need to stop.") and [run_one_iteration]. *)
Record derived := mkDerived {
  def_is_stoped : option (GA -> bool);
  def_run_one_iteration : option (GA -> world -> result (GA * world))
}.

(** A derived class whose [is_stoped] returns [True]. *)
Definition always_stop : derived := mkDerived (Some (fun _ => true)) None.

Section Dispatch.

Variable sample : nat -> result (list Q * Q).
Variable elapsed : nat -> Q.
Variable D : derived.

(** [self.is_stoped()] on an instance of [D]. *)
Definition call_is_stoped (g : GA) : bool :=
  match def_is_stoped D with
  | Some f => f g
  | None => is_stoped g
  end.

(** [self.run_one_iteration()] on an instance of [D]. *)
Definition call_run_one_iteration (g : GA) (w : world)
  : result (GA * world) :=
  match def_run_one_iteration D with
  | Some f => f g w
  | None => run_one_iteration sample elapsed g w
  end.

(** One statement of [GA.run] on an instance of [D].  The calls on [self]
    are those of lines 139 and 150, both of [run_one_iteration]; the other
    statements are as in [GA.step].  No statement calls [is_stoped]. *)
Definition step (c : cfg) : status :=
  match at_line c with
  | L139 =>
      match call_run_one_iteration (self c) (wld c) with
      | Ok (g, w) => Running (mkCfg g w (shared_dict c) L140)
      | Raise e => Raised e
      end
  | L150 =>
      (* while True: *)
      match call_run_one_iteration (self c) (wld c) with
      | Ok (g, w) => Running (mkCfg g w (shared_dict c) L151)
      | Raise e => Raised e
      end
  | _ => GA.step sample elapsed c
  end.

Fixpoint exec (n : nat) (c : cfg) : status :=
  match n with
  | O => Running c
  | S n' =>
      match step c with
      | Running c' => exec n' c'
      | s => s
      end
  end.

(** [GA.run(shared_dict)] on an instance of [D]. *)
Definition run (fuel : nat) (g : GA) (w : world)
    (sd : option (gmap (option string) pyref)) : status :=
  exec fuel (entry g w sd).

(** The loop as the design document words it, for comparison: the stop
    predicate is evaluated once per iteration, at the head of the loop
    ([while not self.is_stoped():]), and when it holds the loop ends and
    line 158 returns the best model. *)
Definition step_as_specified (c : cfg) : status :=
  match at_line c with
  | L150 =>
      if call_is_stoped (self c)
      then Running (mkCfg (self c) (wld c) (shared_dict c) L158)
      else step c
  | _ => step c
  end.

Fixpoint exec_as_specified (n : nat) (c : cfg) : status :=
  match n with
  | O => Running c
  | S n' =>
      match step_as_specified c with
      | Running c' => exec_as_specified n' c'
      | s => s
      end
  end.

Definition run_as_specified (fuel : nat) (g : GA) (w : world)
    (sd : option (gmap (option string) pyref)) : status :=
  exec_as_specified fuel (entry g w sd).

End Dispatch.

End Derived.
(* ===================================================================== *)
(** * Facts about the runtime                                             *)
(* ===================================================================== *)

Module Py_facts.
Import Py.

Lemma Qgtb_true (a b : Q) : Qgtb a b = true <-> (b < a)%Q.
Proof.
  unfold Qgtb. rewrite negb_true_iff. split.
  - intros H. apply Qnot_le_lt. intros Hle.
    apply Qle_bool_iff in Hle. congruence.
  - intros H. destruct (Qle_bool a b) eqn:E; [|reflexivity].
    apply Qle_bool_iff in E. exfalso. revert E. apply Qlt_not_le. exact H.
Qed.

Lemma Qgtb_false (a b : Q) : Qgtb a b = false <-> (a <= b)%Q.
Proof.
  unfold Qgtb. rewrite negb_false_iff. apply Qle_bool_iff.
Qed.

Lemma Qltb_true (a b : Q) : Qltb a b = true <-> (a < b)%Q.
Proof. apply (Qgtb_true b a). Qed.

Lemma Qltb_false (a b : Q) : Qltb a b = false <-> (b <= a)%Q.
Proof. apply (Qgtb_false b a). Qed.

End Py_facts.

(* ===================================================================== *)
(** * Facts about the engine                                              *)
(* ===================================================================== *)

Module GA_facts.
Import Py Py_facts GA.

(** ** The heap only grows *)

Lemma heap_le_refl h : heap_le h h.
Proof. exists []. now rewrite app_nil_r. Qed.

Lemma heap_le_trans h1 h2 h3 : heap_le h1 h2 -> heap_le h2 h3 -> heap_le h1 h3.
Proof.
  intros [k1 ->] [k2 ->]. exists (k1 ++ k2). now rewrite app_assoc.
Qed.

Lemma heap_le_alloc h o : heap_le h (fst (alloc h o)).
Proof. now exists [o]. Qed.

Lemma heap_le_lookup (h h' : list obj) (l : loc) o :
  heap_le h h' -> h !! l = Some o -> h' !! l = Some o.
Proof. intros [k ->] H. now apply lookup_app_l_Some. Qed.

Lemma heap_le_length (h h' : list obj) : heap_le h h' -> (length h <= length h')%nat.
Proof. intros [k ->]. rewrite length_app. lia. Qed.

Lemma lookup_alloc_new (h : list obj) o : (h ++ [o]) !! length h = Some o.
Proof. rewrite lookup_app_r by lia. now rewrite Nat.sub_diag. Qed.

Lemma view_Some h m xs f :
  view h m = Some (xs, f) <->
  exists l v, m = Some l /\ h !! l = Some (OModel v f) /\ h !! v = Some (OList xs).
Proof.
  unfold view. split.
  - destruct m as [l|]; [|discriminate].
    destruct (h !! l) as [[ys|v f']|] eqn:El; try discriminate.
    destruct (h !! v) as [[ys|v' f'']|] eqn:Ev; try discriminate.
    intros [= -> ->]. eauto.
  - intros (l & v & -> & -> & ->). reflexivity.
Qed.

Lemma heap_le_view h h' m x :
  heap_le h h' -> view h m = Some x -> view h' m = Some x.
Proof.
  intros Hle. destruct x as [xs f]. rewrite !view_Some.
  intros (l & v & -> & Hl & Hv). exists l, v.
  eauto using heap_le_lookup.
Qed.

Lemma view_fitness h m xs f :
  view h m = Some (xs, f) -> get_fitness_func_value h m = Ok f.
Proof.
  rewrite view_Some. intros (l & v & -> & Hl & _).
  unfold get_fitness_func_value. now rewrite Hl.
Qed.

Lemma view_cells h m xs f :
  view h m = Some (xs, f) ->
  exists l v, m = Some l /\ cells h m = [l; v] /\
              (l < length h)%nat /\ (v < length h)%nat.
Proof.
  rewrite view_Some. intros (l & v & -> & Hl & Hv). exists l, v.
  unfold cells. rewrite Hl. repeat split.
  - now apply lookup_lt_Some in Hl.
  - now apply lookup_lt_Some in Hv.
Qed.

(** ** [copy.deepcopy] *)

Lemma deepcopy_model h m xs f :
  view h m = Some (xs, f) ->
  deepcopy h m = Ok (copied h xs f, Some (S (length h))).
Proof.
  rewrite view_Some. intros (l & v & -> & Hl & Hv).
  unfold deepcopy, alloc, copied. rewrite Hl, Hv.
  rewrite length_app. cbn [length]. rewrite Nat.add_1_r.
  now rewrite <- app_assoc.
Qed.

Lemma view_copy (h : list obj) xs f :
  view (copied h xs f) (Some (S (length h))) = Some (xs, f).
Proof.
  unfold copied. apply view_Some. exists (S (length h)), (length h). split; [reflexivity|].
  split.
  - rewrite lookup_app_r by lia.
    replace (S (length h) - length h)%nat with 1%nat by lia. reflexivity.
  - rewrite lookup_app_r by lia. now rewrite Nat.sub_diag.
Qed.

Lemma cells_copy (h : list obj) xs f :
  cells (copied h xs f) (Some (S (length h))) = [S (length h); length h].
Proof.
  unfold cells, copied. rewrite lookup_app_r by lia.
  replace (S (length h) - length h)%nat with 1%nat by lia. reflexivity.
Qed.

Lemma heap_le_copied h xs f : heap_le h (copied h xs f).
Proof. unfold copied. now eexists. Qed.

Lemma length_copied h xs f : length (copied h xs f) = S (S (length h)).
Proof. unfold copied. rewrite length_app. cbn. lia. Qed.

Lemma valid_copy h xs f : valid (copied h xs f) (Some (S (length h))).
Proof. exists xs, f. apply view_copy. Qed.

Lemma heap_le_valid h h' m : heap_le h h' -> valid h m -> valid h' m.
Proof. intros Hle (xs & f & Hv). exists xs, f. eauto using heap_le_view. Qed.

(** ** One iteration, one update *)

Section EngineFacts.

Variable sample : nat -> result (list Q * Q).
Variable elapsed : nat -> Q.

Local Abbreviation run_one_iteration := (run_one_iteration sample elapsed).
Local Abbreviation step := (step sample elapsed).
Local Abbreviation exec := (exec sample elapsed).
Local Abbreviation run := (run sample elapsed).

Lemma run_one_iteration_ok g w xs f :
  sample (draws w) = Ok (xs, f) ->
  run_one_iteration g w = Ok (iterated elapsed g w xs f).
Proof.
  intros Hs. unfold GA.run_one_iteration, get_random_model, alloc, iterated.
  rewrite Hs. cbn [mbind result_bind bind].
  cbn [heap model set_work_time set_model get_fitness_func_value].
  rewrite length_app. cbn [length]. rewrite Nat.add_1_r.
  rewrite <- app_assoc. cbn [app].
  assert (Hl : (heap w ++ [OList xs; OModel (length (heap w)) f])
               !! S (length (heap w)) = Some (OModel (length (heap w)) f)).
  { rewrite lookup_app_r by lia.
    replace (S (length (heap w)) - length (heap w))%nat with 1%nat by lia.
    reflexivity. }
  rewrite Hl. reflexivity.
Qed.

Lemma run_one_iteration_raise g w e :
  sample (draws w) = Raise e -> run_one_iteration g w = Raise e.
Proof.
  intros Hs. unfold GA.run_one_iteration, get_random_model.
  now rewrite Hs.
Qed.

Lemma run_one_iteration_inv g w r :
  run_one_iteration g w = Ok r ->
  exists xs f, sample (draws w) = Ok (xs, f) /\ r = iterated elapsed g w xs f.
Proof.
  destruct (sample (draws w)) as [[xs f]|e] eqn:Hs.
  - rewrite (run_one_iteration_ok g w xs f Hs). intros [= <-].
    now exists xs, f.
  - rewrite (run_one_iteration_raise g w e Hs). discriminate.
Qed.

Lemma update_best_ok g w sd xs f :
  view (heap w) (model g) = Some (xs, f) ->
  update_best g w sd = Ok (updated g w sd xs f).
Proof.
  intros Hv. unfold update_best, updated.
  rewrite (deepcopy_model _ _ _ _ Hv). cbn [mbind result_bind bind].
  unfold publish. destruct sd as [d|]; [|reflexivity].
  cbn [best_model set_best_model heap set_heap].
  rewrite (deepcopy_model _ _ xs f) by apply view_copy.
  reflexivity.
Qed.

Lemma compare_and_update_eq g w sd xb fb xm fm :
  view (heap w) (best_model g) = Some (xb, fb) ->
  view (heap w) (model g) = Some (xm, fm) ->
  compare_and_update g w sd =
    if Qgtb fb fm then Ok (updated g w sd xm fm) else Ok (g, w, sd).
Proof.
  intros Hb Hm. unfold compare_and_update.
  rewrite (view_fitness _ _ _ _ Hb), (view_fitness _ _ _ _ Hm).
  cbn [mbind result_bind bind].
  destruct (Qgtb fb fm); [|reflexivity].
  now apply update_best_ok.
Qed.

(** ** One statement of [run] *)

Lemma step_spec c c' :
  well_formed c -> step c = Running c' ->
  match at_line c with
  | L125 =>
      c' = mkCfg (fst (open_log (self c) (wld c)))
                 (write_to_file (snd (open_log (self c) (wld c)))
                    (LText (log_file (fst (open_log (self c) (wld c))))
                           "--Start random pipeline--"))
                 (shared_dict c) L139
  | L139 =>
      exists xs f, sample (draws (wld c)) = Ok (xs, f) /\
        c' = mkCfg (fst (iterated elapsed (self c) (wld c) xs f))
                   (snd (iterated elapsed (self c) (wld c) xs f))
                   (shared_dict c) L140
  | L140 =>
      exists xs f, view (heap (wld c)) (model (self c)) = Some (xs, f) /\
        c' = mkCfg (fst (fst (updated (self c) (wld c) (shared_dict c) xs f)))
                   (snd (fst (updated (self c) (wld c) (shared_dict c) xs f)))
                   (snd (updated (self c) (wld c) (shared_dict c) xs f)) L147
  | L147 =>
      c' = mkCfg (set_cur_iteration (self c) (cur_iteration (self c) + 1))
                 (wld c) (shared_dict c) L150
  | L150 =>
      exists xs f, sample (draws (wld c)) = Ok (xs, f) /\
        c' = mkCfg (fst (iterated elapsed (self c) (wld c) xs f))
                   (snd (iterated elapsed (self c) (wld c) xs f))
                   (shared_dict c) L151
  | L151 =>
      exists xb fb xm fm,
        view (heap (wld c)) (best_model (self c)) = Some (xb, fb) /\
        view (heap (wld c)) (model (self c)) = Some (xm, fm) /\
        ((fm < fb)%Q /\
         c' = mkCfg (fst (fst (updated (self c) (wld c) (shared_dict c) xm fm)))
                    (snd (fst (updated (self c) (wld c) (shared_dict c) xm fm)))
                    (snd (updated (self c) (wld c) (shared_dict c) xm fm)) L150
         \/
         (fb <= fm)%Q /\ c' = mkCfg (self c) (wld c) (shared_dict c) L150)
  | L158 => False
  end.
Proof.
  intros Hwf. unfold GA.step. unfold well_formed in Hwf.
  destruct (at_line c) eqn:Hpc.
  - destruct (open_log (self c) (wld c)) as [g w]. now intros [= <-].
  - destruct (GA.run_one_iteration sample elapsed (self c) (wld c))
      as [[g w]|e] eqn:Hr; [|discriminate].
    apply run_one_iteration_inv in Hr as (xs & f & Hs & Hr).
    intros [= <-]. exists xs, f. now rewrite <- Hr.
  - destruct Hwf as (xs & f & Hv).
    rewrite (update_best_ok _ _ _ _ _ Hv).
    destruct (updated _ _ _ xs f) as [[g w] sd] eqn:Hu.
    intros [= <-]. exists xs, f. now rewrite Hu.
  - now intros [= <-].
  - destruct (GA.run_one_iteration sample elapsed (self c) (wld c))
      as [[g w]|e] eqn:Hr; [|discriminate].
    apply run_one_iteration_inv in Hr as (xs & f & Hs & Hr).
    intros [= <-]. exists xs, f. now rewrite <- Hr.
  - destruct Hwf as [(xb & fb & Hb) (xm & fm & Hm)].
    rewrite (compare_and_update_eq _ _ _ _ _ _ _ Hb Hm).
    exists xb, fb, xm, fm. split; [exact Hb|]. split; [exact Hm|].
    destruct (Qgtb fb fm) eqn:Hgt.
    + apply Qgtb_true in Hgt. left. split; [exact Hgt|].
      destruct (updated _ _ _ xm fm) as [[g w] sd] eqn:Hu.
      now injection H as <-.
    + apply Qgtb_false in Hgt. right. split; [exact Hgt|].
      now injection H as <-.
  - destruct Hwf.
Qed.

Lemma step_well_formed c c' :
  well_formed c -> step c = Running c' -> well_formed c'.
Proof.
  intros Hwf Hst. pose proof (step_spec c c' Hwf Hst) as Hsp.
  unfold well_formed in Hwf.
  destruct (at_line c) eqn:Hpc.
  - subst c'. exact I.
  - destruct Hsp as (xs & f & _ & ->). unfold well_formed. cbn.
    apply valid_copy.
  - destruct Hsp as (xs & f & _ & ->). unfold well_formed. cbn.
    destruct (shared_dict c); cbn.
    + eapply heap_le_valid; [apply heap_le_copied | apply valid_copy].
    + apply valid_copy.
  - subst c'. exact Hwf.
  - destruct Hsp as (xs & f & _ & ->). unfold well_formed. cbn. split.
    + eapply heap_le_valid; [apply heap_le_copied | exact Hwf].
    + apply valid_copy.
  - destruct Hsp as (xb & fb & xm & fm & _ & _ & [[_ ->] | [_ ->]]).
    + unfold well_formed. cbn. destruct (shared_dict c); cbn.
      * eapply heap_le_valid; [apply heap_le_copied | apply valid_copy].
      * apply valid_copy.
    + apply Hwf.
  - destruct Hsp.
Qed.

Lemma step_never_returns c v c' : well_formed c -> step c <> Returned v c'.
Proof.
  intros Hwf. unfold GA.step. unfold well_formed in Hwf.
  destruct (at_line c); try discriminate.
  - now destruct (open_log (self c) (wld c)).
  - now destruct (GA.run_one_iteration sample elapsed (self c) (wld c)) as [[? ?]|?].
  - now destruct (update_best (self c) (wld c) (shared_dict c)) as [[[? ?] ?]|?].
  - now destruct (GA.run_one_iteration sample elapsed (self c) (wld c)) as [[? ?]|?].
  - now destruct (compare_and_update (self c) (wld c) (shared_dict c)) as [[[? ?] ?]|?].
  - destruct Hwf.
Qed.

(** An exception can only come out of the sampling oracle. *)
Lemma step_raises c e :
  well_formed c -> step c = Raised e -> sample (draws (wld c)) = Raise e.
Proof.
  intros Hwf. unfold GA.step. unfold well_formed in Hwf.
  destruct (at_line c).
  - now destruct (open_log (self c) (wld c)).
  - destruct (sample (draws (wld c))) as [[xs f]|e'] eqn:Hs.
    + now rewrite (run_one_iteration_ok _ _ _ _ Hs).
    + rewrite (run_one_iteration_raise _ _ _ Hs). congruence.
  - destruct Hwf as (xs & f & Hv). rewrite (update_best_ok _ _ _ _ _ Hv).
    now destruct (updated _ _ _ xs f) as [[? ?] ?].
  - discriminate.
  - destruct (sample (draws (wld c))) as [[xs f]|e'] eqn:Hs.
    + now rewrite (run_one_iteration_ok _ _ _ _ Hs).
    + rewrite (run_one_iteration_raise _ _ _ Hs). congruence.
  - destruct Hwf as [(xb & fb & Hb) (xm & fm & Hm)].
    rewrite (compare_and_update_eq _ _ _ _ _ _ _ Hb Hm).
    destruct (Qgtb fb fm); [|discriminate].
    now destruct (updated _ _ _ xm fm) as [[? ?] ?].
  - destruct Hwf.
Qed.

(** ** Reachable configurations *)

Lemma exec_S n c :
  exec (S n) c = match step c with Running c' => exec n c' | s => s end.
Proof. reflexivity. Qed.

Lemma exec_snoc n c c' :
  exec (S n) c = Running c' ->
  exists c1, exec n c = Running c1 /\ step c1 = Running c'.
Proof.
  revert c. induction n as [|n IH]; intros c.
  - cbn. destruct (step c) eqn:Hs; try discriminate.
    intros [= <-]. exists c. now split.
  - rewrite exec_S. destruct (step c) as [c1| |] eqn:Hs; try discriminate.
    intros H. apply IH in H as (c2 & H2 & H3). exists c2. split; [|exact H3].
    rewrite exec_S, Hs. exact H2.
Qed.

Lemma exec_invariant (P : cfg -> Prop) :
  (forall c c', well_formed c -> P c -> step c = Running c' -> P c') ->
  forall n c0 c, well_formed c0 -> P c0 -> exec n c0 = Running c ->
                 well_formed c /\ P c.
Proof.
  intros Hstep n. induction n as [|n IH]; intros c0 c Hwf HP.
  - intros [= <-]. now split.
  - intros H. apply exec_snoc in H as (c1 & H1 & H2).
    destruct (IH c0 c1 Hwf HP H1) as [Hwf1 HP1]. split.
    + eapply step_well_formed; eauto.
    + eapply Hstep; eauto.
Qed.

Lemma exec_well_formed n c0 c :
  well_formed c0 -> exec n c0 = Running c -> well_formed c.
Proof.
  intros Hwf H.
  now destruct (exec_invariant (fun _ => True) (fun _ _ _ _ _ => I) n c0 c Hwf I H).
Qed.

Lemma exec_never_returns n c0 v c :
  well_formed c0 -> exec n c0 <> Returned v c.
Proof.
  revert c0. induction n as [|n IH]; intros c0 Hwf; [discriminate|].
  rewrite exec_S. destruct (step c0) as [c1|v1 c1|e] eqn:Hs.
  - apply IH. eapply step_well_formed; eauto.
  - now apply step_never_returns in Hs.
  - discriminate.
Qed.

Lemma step_draws c c' :
  well_formed c -> step c = Running c' ->
  heap_le (heap (wld c)) (heap (wld c')) /\
  prefix (self c') = prefix (self c) /\
  first_iteration (self c') = first_iteration (self c) /\
  (is_Some (shared_dict c) -> is_Some (shared_dict c')).
Proof.
  intros Hwf Hst. pose proof (step_spec c c' Hwf Hst) as Hsp.
  destruct (at_line c) eqn:Hpc.
  - subst c'. cbn. unfold open_log.
    destruct (prefix (self c)) eqn:E; cbn; repeat split; auto using heap_le_refl.
  - destruct Hsp as (xs & f & _ & ->). cbn. auto using heap_le_copied.
  - destruct Hsp as (xs & f & _ & ->). cbn.
    destruct (shared_dict c); cbn; repeat split; eauto;
      eauto using heap_le_copied, heap_le_trans.
  - subst c'. cbn. auto using heap_le_refl.
  - destruct Hsp as (xs & f & _ & ->). cbn. auto using heap_le_copied.
  - destruct Hsp as (xb & fb & xm & fm & _ & _ & [[_ ->] | [_ ->]]); cbn.
    + destruct (shared_dict c); cbn; repeat split; eauto;
        eauto using heap_le_copied, heap_le_trans.
    + auto using heap_le_refl.
  - destruct Hsp.
Qed.


Lemma line_at_SS n : (4 <= n)%nat -> line_at (S (S n)) = line_at n.
Proof.
  intros H. do 4 (destruct n as [|n]; [lia|]). reflexivity.
Qed.

Lemma step_line c c' :
  well_formed c -> step c = Running c' ->
  at_line c' = match at_line c with
               | L125 => L139 | L139 => L140 | L140 => L147 | L147 => L150
               | L150 => L151 | L151 => L150 | L158 => L158
               end.
Proof.
  intros Hwf Hst. pose proof (step_spec c c' Hwf Hst) as Hsp.
  destruct (at_line c) eqn:Hpc.
  - now subst c'.
  - now destruct Hsp as (xs & f & _ & ->).
  - now destruct Hsp as (xs & f & _ & ->).
  - now subst c'.
  - now destruct Hsp as (xs & f & _ & ->).
  - now destruct Hsp as (xb & fb & xm & fm & _ & _ & [[_ ->] | [_ ->]]).
  - destruct Hsp.
Qed.

Lemma exec_line n g w sd c :
  exec n (entry g w sd) = Running c -> at_line c = line_at n /\ well_formed c.
Proof.
  revert c. induction n as [|n IH]; intros c.
  - intros [= <-]. now split.
  - intros H. apply exec_snoc in H as (c1 & H1 & H2).
    destruct (IH c1 H1) as [Hl Hwf]. split; [|eapply step_well_formed; eauto].
    rewrite (step_line c1 c Hwf H2), Hl.
    do 4 (destruct n as [|n]; [reflexivity|]).
    change (line_at (S (S (S (S n))))) with (if Nat.even n then L150 else L151).
    change (line_at (S (S (S (S (S n)))))) with (if Nat.even (S n) then L150 else L151).
    rewrite Nat.even_succ, <- Nat.negb_even.
    now destruct (Nat.even n).
Qed.

(** The loop is entered after four statements and never left. *)
Lemma in_loop n g w sd c :
  exec n (entry g w sd) = Running c -> (4 <= n)%nat ->
  at_line c = L150 \/ at_line c = L151.
Proof.
  intros H Hn. apply exec_line in H as [-> _].
  do 4 (destruct n as [|n]; [lia|]).
  change (line_at (S (S (S (S n))))) with (if Nat.even n then L150 else L151).
  destruct (Nat.even n); auto.
Qed.

(** ** The iteration counter and the log *)


Lemma iterations_logged_app l1 l2 :
  iterations_logged (l1 ++ l2) = iterations_logged l1 ++ iterations_logged l2.
Proof.
  induction l1 as [|[f t|f i t v m] l1 IH]; cbn; [reflexivity|exact IH|].
  now rewrite IH.
Qed.

Lemma repeat_snoc {A} (x : A) k : repeat x k ++ [x] = repeat x (S k).
Proof. induction k as [|k IH]; cbn; [reflexivity|]. now rewrite IH. Qed.

Lemma step_counted i0 its0 c c' :
  well_formed c -> counted i0 its0 c -> step c = Running c' ->
  counted i0 its0 c'.
Proof.
  intros Hwf Hc Hst. pose proof (step_spec c c' Hwf Hst) as Hsp.
  unfold counted in Hc.
  destruct (at_line c) eqn:Hpc.
  - subst c'. unfold counted. cbn. destruct Hc as [Hi Hl].
    unfold open_log. destruct (prefix (self c)); cbn;
      rewrite iterations_logged_app; cbn; rewrite app_nil_r; auto.
  - destruct Hsp as (xs & f & _ & ->). unfold counted. cbn.
    destruct Hc as [Hi Hl]. rewrite iterations_logged_app. cbn.
    now rewrite Hi, Hl.
  - destruct Hsp as (xs & f & _ & ->). unfold counted. cbn.
    destruct (shared_dict c); cbn; exact Hc.
  - subst c'. unfold counted. cbn. destruct Hc as [Hi Hl]. split; [lia|].
    exists 0%nat. exact Hl.
  - destruct Hsp as (xs & f & _ & ->). unfold counted. cbn.
    destruct Hc as [Hi [k Hl]]. split; [exact Hi|]. exists (S k).
    rewrite iterations_logged_app, Hl, Hi. cbn [iterations_logged].
    rewrite <- app_assoc. cbn [app]. now rewrite repeat_snoc.
  - destruct Hsp as (xb & fb & xm & fm & _ & _ & [[_ ->] | [_ ->]]).
    + unfold counted. cbn. destruct (shared_dict c); cbn; exact Hc.
    + unfold counted. cbn. exact Hc.
  - destruct Hsp.
Qed.

Lemma exec_counted n g w sd c :
  exec n (entry g w sd) = Running c ->
  counted (cur_iteration g) (iterations_logged (log w)) c.
Proof.
  intros H.
  apply (exec_invariant (counted (cur_iteration g) (iterations_logged (log w))))
    in H as [_ H]; [exact H| |exact I|].
  - intros c1 c2 Hwf HP Hst. eapply step_counted; eauto.
  - split; reflexivity.
Qed.

Lemma exec_first_iteration n g w sd c :
  exec n (entry g w sd) = Running c ->
  first_iteration (self c) = first_iteration g /\
  prefix (self c) = prefix g /\
  heap_le (heap w) (heap (wld c)) /\
  (is_Some sd -> is_Some (shared_dict c)).
Proof.
  intros H.
  apply (exec_invariant (fun c => first_iteration (self c) = first_iteration g /\
                                  prefix (self c) = prefix g /\
                                  heap_le (heap w) (heap (wld c)) /\
                                  (is_Some sd -> is_Some (shared_dict c))))
    in H as [_ H]; [exact H| |exact I|].
  - intros c1 c2 Hwf (H1 & H2 & H3 & H4) Hst.
    destruct (step_draws c1 c2 Hwf Hst) as (K1 & K2 & K3 & K4).
    repeat split; try congruence; eauto using heap_le_trans.
  - cbn. auto using heap_le_refl.
Qed.

(** ** Progress *)

Lemma exec_runs n c0 :
  well_formed c0 -> (forall k, is_ok (sample k) = true) ->
  exists c, exec n c0 = Running c.
Proof.
  intros Hwf Hok. revert c0 Hwf.
  induction n as [|n IH]; intros c0 Hwf; [now exists c0|].
  rewrite exec_S. destruct (step c0) as [c1|v c1|e] eqn:Hs.
  - apply IH. eapply step_well_formed; eauto.
  - now apply step_never_returns in Hs.
  - apply step_raises in Hs; [|exact Hwf].
    specialize (Hok (draws (wld c0))). rewrite Hs in Hok. discriminate.
Qed.

Lemma exec_add a b c :
  exec (a + b) c = match exec a c with Running c1 => exec b c1 | s => s end.
Proof.
  revert c. induction a as [|a IH]; intros c; [reflexivity|].
  cbn [Nat.add]. rewrite !exec_S.
  destruct (step c) as [c1|v c1|e]; [apply IH|reflexivity|reflexivity].
Qed.

(** ** The best model never gets worse *)


Lemma looping_best c :
  well_formed c -> looping c -> valid (heap (wld c)) (best_model (self c)).
Proof.
  unfold well_formed, looping. intros Hwf [H|[H|H]]; rewrite H in Hwf;
    tauto.
Qed.

Lemma best_fitness_updated g w sd xs f :
  get_fitness_func_value (heap (snd (fst (updated g w sd xs f))))
                         (best_model (fst (fst (updated g w sd xs f)))) = Ok f.
Proof.
  apply (view_fitness _ _ xs). unfold updated.
  cbn [fst snd best_model set_best_model].
  destruct sd; cbn [heap set_heap].
  - eapply heap_le_view; [apply heap_le_copied | apply view_copy].
  - apply view_copy.
Qed.

Lemma step_best_le c c' :
  well_formed c -> looping c -> step c = Running c' ->
  looping c' /\
  exists f f', best_fitness c = Ok f /\ best_fitness c' = Ok f' /\ (f' <= f)%Q.
Proof.
  intros Hwf Hloop Hst.
  pose proof (step_spec c c' Hwf Hst) as Hsp.
  pose proof (step_line c c' Hwf Hst) as Hl.
  destruct (looping_best c Hwf Hloop) as (xb & fb & Hb).
  pose proof (view_fitness _ _ _ _ Hb) as Hfb.
  split.
  { unfold looping in *. rewrite Hl.
    destruct Hloop as [H|[H|H]]; rewrite H; auto. }
  exists fb. unfold best_fitness. rewrite Hfb.
  destruct Hloop as [H|[H|H]]; rewrite H in Hsp.
  - subst c'. cbn. exists fb. rewrite Hfb. split; [reflexivity|].
    split; [reflexivity|apply Qle_refl].
  - destruct Hsp as (xs & f & _ & ->). cbn. exists fb.
    split; [reflexivity|]. split; [|apply Qle_refl].
    apply (view_fitness _ _ xb).
    eapply heap_le_view; [apply heap_le_copied | exact Hb].
  - destruct Hsp as (xb' & fb' & xm & fm & Hb' & Hm & [[Hlt ->] | [Hle ->]]).
    + rewrite Hb in Hb'. injection Hb' as <- <-.
      exists fm. split; [reflexivity|]. split; [|now apply Qlt_le_weak].
      cbn [self wld]. apply best_fitness_updated.
    + exists fb. cbn. rewrite Hfb. split; [reflexivity|].
      split; [reflexivity|apply Qle_refl].
Qed.

Lemma exec_best_le n c c' :
  well_formed c -> looping c -> exec n c = Running c' ->
  exists f f', best_fitness c = Ok f /\ best_fitness c' = Ok f' /\ (f' <= f)%Q.
Proof.
  revert c. induction n as [|n IH]; intros c Hwf Hloop.
  - intros [= <-].
    destruct (looping_best c Hwf Hloop) as (xb & fb & Hb).
    exists fb, fb. unfold best_fitness.
    rewrite (view_fitness _ _ _ _ Hb). repeat split. apply Qle_refl.
  - rewrite exec_S. destruct (step c) as [c1|v c1|e] eqn:Hs; try discriminate.
    intros Hex.
    destruct (step_best_le c c1 Hwf Hloop Hs) as (Hloop1 & f & f1 & Hf & Hf1 & Hle).
    destruct (IH c1 (step_well_formed _ _ Hwf Hs) Hloop1 Hex)
      as (f1' & f' & Hf1' & Hf' & Hle').
    rewrite Hf1 in Hf1'. injection Hf1' as <-.
    exists f, f'. repeat split; auto. eapply Qle_trans; eauto.
Qed.

(** C1.  In [GA.run] the best model is replaced only when the new
    candidate's fitness is strictly lower than the incumbent's (a tie, or a
    worse candidate, leaves the engine, the world and the registry as they
    were), and so, for iteration indices [i < j] of one run, the fitness of
    the best model held after iteration [i] is greater than or equal to the
    one held after iteration [j].  The simulator is assumed not to raise. *)
Theorem best_model_replaced_only_if_strictly_better
    (g : GA) (w : world) (sd : option (gmap (option string) pyref))
    (i j : nat) :
  (forall k, is_ok (sample k) = true) ->
  (i < j)%nat ->
  (forall n c c',
      exec n (entry g w sd) = Running c -> at_line c = L151 ->
      step c = Running c' ->
      exists fb fm,
        best_fitness c = Ok fb /\
        get_fitness_func_value (heap (wld c)) (model (self c)) = Ok fm /\
        ((fm < fb)%Q ->
           best_model (self c') <> best_model (self c) /\
           best_fitness c' = Ok fm) /\
        (~ (fm < fb)%Q ->
           self c' = self c /\ wld c' = wld c /\
           shared_dict c' = shared_dict c)) /\
  exists ci cj fi fj,
    after_iteration sample elapsed i g w sd = Running ci /\
    after_iteration sample elapsed j g w sd = Running cj /\
    best_fitness ci = Ok fi /\ best_fitness cj = Ok fj /\
    (fj <= fi)%Q.
Proof.
  intros Hok Hij. split.
  - intros n c c' Hex Hpc Hst.
    apply exec_line in Hex as [_ Hwf].
    pose proof (step_spec c c' Hwf Hst) as Hsp. rewrite Hpc in Hsp.
    destruct Hsp as (xb & fb & xm & fm & Hb & Hm & Hcases).
    exists fb, fm. unfold best_fitness.
    rewrite (view_fitness _ _ _ _ Hb), (view_fitness _ _ _ _ Hm).
    split; [reflexivity|]. split; [reflexivity|].
    destruct Hcases as [[Hlt ->] | [Hle ->]].
    + split.
      * intros _. split; [|cbn [self wld]; apply best_fitness_updated].
        cbn. apply view_cells in Hb as (l & v & -> & _ & Hl & _).
        intros [= E]. lia.
      * intros Hn. contradiction.
    + split.
      * intros Hlt. exfalso. revert Hle. now apply Qlt_not_le.
      * intros _. now cbn.
  - unfold after_iteration, GA.run.
    replace (4 + 2 * j)%nat with ((4 + 2 * i) + 2 * (j - i))%nat by lia.
    rewrite (exec_add (4 + 2 * i) (2 * (j - i))).
    destruct (exec_runs (4 + 2 * i) (entry g w sd) I Hok) as [ci Hci].
    rewrite Hci.
    pose proof (exec_line _ _ _ _ _ Hci) as [_ Hwf].
    destruct (exec_runs (2 * (j - i)) ci Hwf Hok) as [cj Hcj].
    assert (Hloop : looping ci).
    { unfold looping. right.
      apply (in_loop _ _ _ _ _ Hci). lia. }
    destruct (exec_best_le _ _ _ Hwf Hloop Hcj) as (fi & fj & Hfi & Hfj & Hle).
    exists ci, cj, fi, fj. auto.
Qed.

(** ** Publication into the shared dictionary *)

Lemma step_best_model_changes c c' :
  well_formed c -> step c = Running c' ->
  best_model (self c') <> best_model (self c) ->
  exists xs f,
    (self c', wld c', shared_dict c')
    = updated (self c) (wld c) (shared_dict c) xs f.
Proof.
  intros Hwf Hst Hne. pose proof (step_spec c c' Hwf Hst) as Hsp.
  destruct (at_line c) eqn:Hpc.
  - subst c'. exfalso. apply Hne. cbn. unfold open_log.
    now destruct (prefix (self c)).
  - destruct Hsp as (xs & f & _ & ->). exfalso; apply Hne; reflexivity.
  - destruct Hsp as (xs & f & _ & ->). exists xs, f.
    cbn [self wld shared_dict].
    now destruct (updated _ _ _ xs f) as [[? ?] ?].
  - subst c'. exfalso; apply Hne; reflexivity.
  - destruct Hsp as (xs & f & _ & ->). exfalso; apply Hne; reflexivity.
  - destruct Hsp as (xb & fb & xm & fm & _ & _ & [[_ ->] | [_ ->]]).
    + exists xm, fm. cbn [self wld shared_dict].
      now destruct (updated _ _ _ xm fm) as [[? ?] ?].
    + exfalso; apply Hne; reflexivity.
  - destruct Hsp.
Qed.

Lemma lookup_copied_model (h : list obj) xs f :
  copied h xs f !! S (length h) = Some (OModel (length h) f).
Proof.
  unfold copied. rewrite lookup_app_r by lia.
  replace (S (length h) - length h)%nat with 1%nat by lia. reflexivity.
Qed.

Lemma lookup_copied_list (h : list obj) xs f :
  copied h xs f !! length h = Some (OList xs).
Proof.
  unfold copied. rewrite lookup_app_r by lia. now rewrite Nat.sub_diag.
Qed.

(** C2.  Whenever [GA.run] was given a shared dictionary and a statement of
    the run replaces the engine's best model, the dictionary entry under
    the run's prefix is a deep copy of the new best model: it has the same
    value, it is another object made of other heap cells, and whatever is
    written afterwards into a cell of the published copy leaves the value of
    the engine's best model as it was. *)
Theorem published_entry_is_deep_copy
    (n : nat) (g : GA) (w : world) (d : gmap (option string) pyref)
    (c c' : cfg) :
  exec n (entry g w (Some d)) = Running c ->
  step c = Running c' ->
  best_model (self c') <> best_model (self c) ->
  exists d' le lb xs f,
    shared_dict c' = Some d' /\
    d' !! prefix (self c') = Some (Some le) /\
    best_model (self c') = Some lb /\
    view (heap (wld c')) (Some le) = Some (xs, f) /\
    view (heap (wld c')) (Some lb) = Some (xs, f) /\
    le <> lb /\
    (forall l, In l (cells (heap (wld c')) (Some le)) ->
               ~ In l (cells (heap (wld c')) (Some lb))) /\
    (forall l o, In l (cells (heap (wld c')) (Some le)) ->
                 view (<[l := o]> (heap (wld c'))) (Some lb) = Some (xs, f)).
Proof.
  intros Hex Hst Hne.
  pose proof (exec_line _ _ _ _ _ Hex) as [_ Hwf].
  destruct (exec_first_iteration _ _ _ _ _ Hex) as (_ & _ & _ & Hsd).
  destruct (Hsd (mk_is_Some _ _ eq_refl)) as [d0 Hd0].
  destruct (step_best_model_changes c c' Hwf Hst Hne) as (xs & f & Hupd).
  rewrite Hd0 in Hupd. unfold updated in Hupd.
  injection Hupd as Hg Hw Hd.
  set (h := heap (wld c)) in *.
  set (h1 := copied h xs f) in *.
  set (h2 := copied h1 xs f) in *.
  assert (Hlen1 : length h1 = S (S (length h))) by apply length_copied.
  assert (Hh' : heap (wld c') = h2) by now rewrite Hw.
  assert (Hlb : h2 !! S (length h) = Some (OModel (length h) f)).
  { eapply heap_le_lookup; [apply heap_le_copied|apply lookup_copied_model]. }
  assert (Hvb : h2 !! length h = Some (OList xs)).
  { eapply heap_le_lookup; [apply heap_le_copied|apply lookup_copied_list]. }
  assert (Hle : h2 !! S (length h1) = Some (OModel (length h1) f))
    by apply lookup_copied_model.
  exists (<[prefix (self c) := Some (S (length h1))]> d0),
         (S (length h1)), (S (length h)), xs, f.
  rewrite Hh'. repeat split.
  - now rewrite Hd.
  - rewrite Hg. cbn. apply lookup_insert_eq.
  - now rewrite Hg.
  - apply view_copy.
  - apply view_Some. eauto.
  - lia.
  - unfold cells. rewrite Hle, Hlb. cbn. lia.
  - intros l o. unfold cells. rewrite Hle. cbn [In]. intros Hin.
    apply view_Some. exists (S (length h)), (length h).
    split; [reflexivity|].
    split; (rewrite list_lookup_insert_ne by lia); assumption.
Qed.

(** ** The loop has no exit *)

(** With a simulator that does not raise, the run goes on for ever. *)
Lemma run_keeps_running fuel g w sd :
  (forall k, is_ok (sample k) = true) ->
  exists c, run fuel g w sd = Running c.
Proof. intros Hok. now apply exec_runs. Qed.

(** ** The iteration counter *)

(** C9.  In every configuration reachable in [GA.run] on a fresh engine the
    iteration counter is at most 1; the iteration indices written to the log
    are 0 for the first iteration and 1 for every later one; and once the
    loop is entered (from the fourth statement on) the counter is 1 and the
    denominator of [mean_time] is 2, however many iterations are done; up
    to the third statement the counter is still 0. *)
Theorem cur_iteration_at_most_one
    (n : nat) (out : string) (custom : bool) (pfx : option string)
    (w : world) (sd : option (gmap (option string) pyref)) (c : cfg) :
  exec n (entry (init out custom pfx) w sd) = Running c ->
  cur_iteration (self c) <= 1 /\
  (exists l, iterations_logged (log (wld c)) = iterations_logged (log w) ++ l /\
             (l = [] \/ exists k, l = 0 :: repeat 1 k)) /\
  ((n <= 3)%nat -> cur_iteration (self c) = 0) /\
  ((4 <= n)%nat ->
     cur_iteration (self c) = 1 /\
     cur_iteration (self c) + 1 - first_iteration (self c) = 2 /\
     mean_time (self c) = Ok (work_time (self c) / 2)%Q).
Proof.
  intros Hex.
  pose proof (exec_counted _ _ _ _ _ Hex) as Hc. cbn [init cur_iteration] in Hc.
  destruct (exec_first_iteration _ _ _ _ _ Hex) as (Hfi & _).
  cbn [init first_iteration] in Hfi.
  pose proof (exec_line _ _ _ _ _ Hex) as [Hline _].
  unfold counted in Hc. split; [|split; [|split]].
  - destruct (at_line c); try (destruct Hc as [-> _]; lia). destruct Hc.
  - destruct (at_line c).
    + destruct Hc as [_ ->]. exists []. rewrite app_nil_r. auto.
    + destruct Hc as [_ ->]. exists []. rewrite app_nil_r. auto.
    + destruct Hc as [_ ->]. exists [0]. split; [reflexivity|].
      right. now exists 0%nat.
    + destruct Hc as [_ ->]. exists [0]. split; [reflexivity|].
      right. now exists 0%nat.
    + destruct Hc as [_ [k ->]]. eexists. split; [reflexivity|]. right. now exists k.
    + destruct Hc as [_ [k ->]]. eexists. split; [reflexivity|]. right. now exists k.
    + destruct Hc.
  - intros Hn. rewrite Hline in Hc.
    do 4 (destruct n as [|n]; [now destruct Hc|]). lia.
  - intros Hn. destruct (in_loop _ _ _ _ _ Hex Hn) as [E|E];
      rewrite E in Hc; destruct Hc as [Hi _]; cbn in Hi;
      (split; [exact Hi|]); (split; [lia|]);
      unfold mean_time; rewrite Hi, Hfi; reflexivity.
Qed.

End EngineFacts.

(** ** [mean_time] *)

(** C4.  [GA.mean_time] returns [work_time / (cur_iteration + 1 -
    first_iteration)] when the denominator is not zero, and raises
    [ZeroDivisionError] when it is: no quotient by zero is ever returned.
    On a fresh engine, before any iteration, the denominator is 1 and the
    result is 0. *)
Theorem mean_time_divides_or_raises (g : GA) :
  (cur_iteration g + 1 - first_iteration g <> 0 ->
   mean_time g
   = Ok (work_time g / inject_Z (cur_iteration g + 1 - first_iteration g))%Q) /\
  (cur_iteration g + 1 - first_iteration g = 0 ->
   exists msg, mean_time g = Raise (Exn ZeroDivisionError msg)) /\
  (forall out custom pfx, mean_time (init out custom pfx) = Ok 0%Q).
Proof.
  unfold mean_time, div_float_int. repeat split.
  - intros Hd. apply Z.eqb_neq in Hd. now rewrite Hd.
  - intros ->. eexists. reflexivity.
Qed.

(** ** The theorems at work on the sample run *)

Lemma best_model_replaced_only_if_strictly_better_witness :
  (forall k, is_ok (demo_sample k) = true) /\ (1 < 3)%nat /\
  exists ci cj fi fj,
    after_iteration demo_sample demo_elapsed 1 demo_engine empty_world (Some ∅)
    = Running ci /\
    after_iteration demo_sample demo_elapsed 3 demo_engine empty_world (Some ∅)
    = Running cj /\
    best_fitness ci = Ok fi /\ best_fitness cj = Ok fj /\ (fj <= fi)%Q.
Proof.
  split; [intros k; reflexivity|]. split; [lia|].
  apply (best_model_replaced_only_if_strictly_better
           demo_sample demo_elapsed demo_engine empty_world (Some ∅) 1 3).
  - intros k. reflexivity.
  - lia.
Defined.

Lemma published_entry_is_deep_copy_witness :
  exec demo_sample demo_elapsed 9 (entry demo_engine empty_world (Some ∅))
  = Running (demo_cfg 9) /\
  step demo_sample demo_elapsed (demo_cfg 9) = Running (demo_cfg 10) /\
  best_model (self (demo_cfg 10)) <> best_model (self (demo_cfg 9)) /\
  exists d' le lb xs f,
    shared_dict (demo_cfg 10) = Some d' /\
    d' !! prefix (self (demo_cfg 10)) = Some (Some le) /\
    best_model (self (demo_cfg 10)) = Some lb /\
    view (heap (wld (demo_cfg 10))) (Some le) = Some (xs, f) /\
    view (heap (wld (demo_cfg 10))) (Some lb) = Some (xs, f) /\
    le <> lb /\
    (forall l, In l (cells (heap (wld (demo_cfg 10))) (Some le)) ->
               ~ In l (cells (heap (wld (demo_cfg 10))) (Some lb))) /\
    (forall l o, In l (cells (heap (wld (demo_cfg 10))) (Some le)) ->
                 view (<[l := o]> (heap (wld (demo_cfg 10)))) (Some lb)
                 = Some (xs, f)).
Proof.
  assert (H1 : exec demo_sample demo_elapsed 9
                    (entry demo_engine empty_world (Some ∅))
               = Running (demo_cfg 9)) by (vm_compute; reflexivity).
  assert (H2 : step demo_sample demo_elapsed (demo_cfg 9)
               = Running (demo_cfg 10)) by (vm_compute; reflexivity).
  assert (H3 : best_model (self (demo_cfg 10)) <> best_model (self (demo_cfg 9)))
    by (vm_compute; discriminate).
  split; [exact H1|]. split; [exact H2|]. split; [exact H3|].
  exact (published_entry_is_deep_copy demo_sample demo_elapsed 9 demo_engine
           empty_world ∅ (demo_cfg 9) (demo_cfg 10) H1 H2 H3).
Defined.

Lemma cur_iteration_at_most_one_witness :
  exec demo_sample demo_elapsed 8
       (entry (init "out" true (Some "1"%string)) empty_world (Some ∅))
  = Running (demo_cfg 8) /\
  cur_iteration (self (demo_cfg 8)) <= 1 /\
  (exists l, iterations_logged (log (wld (demo_cfg 8)))
             = iterations_logged (log empty_world) ++ l /\
             (l = [] \/ exists k, l = 0 :: repeat 1 k)) /\
  ((8 <= 3)%nat -> cur_iteration (self (demo_cfg 8)) = 0) /\
  ((4 <= 8)%nat ->
     cur_iteration (self (demo_cfg 8)) = 1 /\
     cur_iteration (self (demo_cfg 8)) + 1 - first_iteration (self (demo_cfg 8)) = 2 /\
     mean_time (self (demo_cfg 8)) = Ok (work_time (self (demo_cfg 8)) / 2)%Q).
Proof.
  assert (H1 : exec demo_sample demo_elapsed 8
                    (entry (init "out" true (Some "1"%string)) empty_world (Some ∅))
               = Running (demo_cfg 8)) by (vm_compute; reflexivity).
  split; [exact H1|].
  exact (cur_iteration_at_most_one demo_sample demo_elapsed 8 "out" true
           (Some "1"%string) empty_world (Some ∅) (demo_cfg 8) H1).
Defined.

Lemma mean_time_divides_or_raises_witness :
  mean_time (mkGA None "out" true 3 0 (7 # 2) None None None None)
  = Ok ((7 # 2) / inject_Z 4)%Q /\
  exists msg,
    mean_time (mkGA None "out" true 3 4 (7 # 2) None None None None)
    = Raise (Exn ZeroDivisionError msg).
Proof.
  split.
  - apply (mean_time_divides_or_raises
             (mkGA None "out" true 3 0 (7 # 2) None None None None)).
    cbn. lia.
  - apply (mean_time_divides_or_raises
             (mkGA None "out" true 3 4 (7 # 2) None None None None)).
    reflexivity.
Defined.

End GA_facts.

(* ===================================================================== *)
(** * Facts about the coordinator                                         *)
(* ===================================================================== *)

Module Core_facts.
Import Py Py_facts GA GA_facts Core.

(** ** The ranking of the progress report *)


Lemma insert_by_key_perm {A} (x : Q * A) l :
  Permutation (insert_by_key x l) (x :: l).
Proof.
  induction l as [|y l IH]; cbn; [reflexivity|].
  destruct (Qltb (fst x) (fst y)); [reflexivity|].
  rewrite IH. apply perm_swap.
Qed.

Lemma insert_by_key_sorted {A} (x : Q * A) l :
  StronglySorted key_le l -> StronglySorted key_le (insert_by_key x l).
Proof.
  induction l as [|y l IH]; cbn; intros Hs.
  - constructor; [constructor|constructor].
  - inversion Hs as [|? ? Hs' Hall]; subst.
    destruct (Qltb (fst x) (fst y)) eqn:E.
    + apply Qltb_true in E. constructor; [exact Hs|].
      constructor; [now apply Qlt_le_weak|].
      eapply Forall_impl; [exact Hall|].
      intros z Hz. unfold key_le in *.
      eapply Qle_trans; [apply Qlt_le_weak; exact E|exact Hz].
    + apply Qltb_false in E. constructor; [now apply IH|].
      rewrite (insert_by_key_perm x l). constructor; [exact E|exact Hall].
Qed.

Lemma sort_by_key_acc {A} (l acc : list (Q * A)) :
  StronglySorted key_le acc ->
  StronglySorted key_le (fold_left (fun a x => insert_by_key x a) l acc) /\
  Permutation (fold_left (fun a x => insert_by_key x a) l acc) (acc ++ l).
Proof.
  revert acc. induction l as [|x l IH]; intros acc Hs; cbn.
  - rewrite app_nil_r. now split.
  - destruct (IH (insert_by_key x acc) (insert_by_key_sorted x acc Hs))
      as [H1 H2].
    split; [exact H1|]. rewrite H2, insert_by_key_perm.
    cbn [app]. apply Permutation_middle.
Qed.

Lemma sort_by_key_sorted {A} (l : list (Q * A)) :
  StronglySorted key_le (sort_by_key l).
Proof. apply sort_by_key_acc. constructor. Qed.

Lemma sort_by_key_perm {A} (l : list (Q * A)) :
  Permutation (sort_by_key l) l.
Proof. apply (sort_by_key_acc l []). constructor. Qed.


Lemma mapM_decorate h xs :
  Forall (fun x => valid h (snd x)) xs ->
  exists ks, mapM (decorate h) xs = Ok ks /\ map snd ks = xs /\
             Forall (keyed h) ks.
Proof.
  induction 1 as [|x xs (ys & f & Hv) _ (ks & Hm & Hsnd & Hk)].
  - exists []. repeat split. constructor.
  - exists ((f, x) :: ks). cbn [mapM]. rewrite Hm. unfold decorate.
    rewrite (view_fitness _ _ _ _ Hv). cbn. repeat split.
    + now rewrite Hsnd.
    + constructor; [|exact Hk]. unfold keyed. cbn.
      now apply (view_fitness _ _ ys).
Qed.

Lemma ranked_of_keys h (ks : list (Q * (option string * pyref))) :
  Forall (keyed h) ks -> StronglySorted key_le ks ->
  StronglySorted (ranked_before h) (map snd ks).
Proof.
  intros Hk Hs. induction Hs as [|a l Hs IH Hall]; cbn; [constructor|].
  inversion Hk as [|? ? Ha Hl]; subst.
  constructor; [now apply IH|].
  apply Forall_map. rewrite Forall_forall in *.
  intros b Hb. exists (fst a), (fst b). repeat split.
  - exact Ha.
  - now apply Hl.
  - now apply Hall.
Qed.

Lemma sorted_ranks h xs :
  Forall (fun x => valid h (snd x)) xs ->
  exists ys, sorted h xs = Ok ys /\ Permutation ys xs /\
             StronglySorted (ranked_before h) ys.
Proof.
  intros Hv. destruct (mapM_decorate h xs Hv) as (ks & Hm & Hsnd & Hk).
  exists (map snd (sort_by_key ks)). unfold sorted. rewrite Hm.
  split; [reflexivity|]. split.
  - rewrite <- Hsnd. apply Permutation_map, sort_by_key_perm.
  - apply ranked_of_keys; [|apply sort_by_key_sorted].
    rewrite Forall_forall in *. intros kx Hin. apply Hk.
    now rewrite (sort_by_key_perm ks) in Hin.
Qed.


(** C5.  The progress report ranks the per-worker best models of a registry
    snapshot in ascending order of fitness: the ranking handed to the
    printer is a permutation of the snapshot's entries and is sorted by
    fitness, best first; on the snapshot [w1: 5.0, w2: 2.0, w3: 8.0] it is
    [w2, w1, w3]; and on an empty snapshot the function returns at once,
    with no output and no exception. *)
Theorem report_ranks_by_ascending_fitness
    (s : Q) (h : list obj) (d : gmap (option string) pyref) (p : params)
    (log_file : string) (precision : Z) (draw_model : bool) :
  print_best_solution_now s h ∅ p log_file precision draw_model = Ok [] /\
  (d <> ∅ ->
   (forall k m, d !! k = Some m -> valid h m) ->
   exists ranking,
     print_best_solution_now s h d p log_file precision draw_model
     = Ok [WriteTime log_file (hms s) (negb (silence p));
           PrintSetOfModels log_file ranking "Run number"
                            "All best logLL models:" (silence p)] /\
     Permutation ranking (map_to_list d) /\
     StronglySorted (ranked_before h) ranking) /\
  print_best_solution_now s example_heap example_registry p log_file
                          precision draw_model
  = Ok [WriteTime log_file (hms s) (negb (silence p));
        PrintSetOfModels log_file
          [(Some "w2"%string, Some 3%nat); (Some "w1"%string, Some 1%nat);
           (Some "w3"%string, Some 5%nat)]
          "Run number" "All best logLL models:" (silence p)].
Proof.
  split; [|split].
  - unfold print_best_solution_now. now case_decide.
  - intros Hne Hval. unfold print_best_solution_now.
    case_decide as E; [contradiction|].
    destruct (sorted_ranks h (map_to_list d)) as (ys & Hs & Hp & Hr).
    { rewrite Forall_forall. intros [k m] Hin. cbn.
      apply elem_of_map_to_list in Hin. eauto. }
    exists ys. rewrite Hs. auto.
  - unfold print_best_solution_now.
    case_decide as E.
    + exfalso. apply (f_equal (fun m => m !! Some "w1"%string)) in E.
      vm_compute in E. discriminate.
    + replace (sorted example_heap (map_to_list example_registry))
        with (Ok (A := list (option string * pyref))
                [(Some "w2"%string, Some 3%nat); (Some "w1"%string, Some 1%nat);
                 (Some "w3"%string, Some 5%nat)])
        by (vm_compute; reflexivity).
      reflexivity.
Qed.

(** ** A worker that fails *)

Section WorkerFacts.

Variable sample : nat -> result (list Q * Q).
Variable elapsed : nat -> Q.

(** Whatever the simulator raises at the first draw leaves the worker as
    it is: nothing in [run_genetic_algorithm] adds the worker's number. *)
Lemma worker_raises_unchanged fuel number p lf sd w e :
  sample (draws w) = Raise e -> (2 <= fuel)%nat ->
  snd (run_genetic_algorithm sample elapsed fuel number p lf sd w) = WRaise e.
Proof.
  intros Hs Hfuel. unfold run_genetic_algorithm, GA.run.
  destruct fuel as [|[|fuel]]; try lia.
  rewrite exec_S.
  assert (H1 : exists c1, step sample elapsed
                 (entry (init (p_output_dir p) (initial_structure_is_None p)
                              (Some (pretty number))) w sd) = Running c1 /\
               at_line c1 = L139 /\ draws (wld c1) = draws w).
  { eexists. split; [reflexivity|]. cbn. split; reflexivity. }
  destruct H1 as (c1 & -> & Hpc & Hd).
  rewrite exec_S. unfold step. rewrite Hpc.
  rewrite (run_one_iteration_raise sample elapsed (self c1) (wld c1) e)
    by now rewrite Hd.
  reflexivity.
Qed.

Lemma worker_never_returns fuel number p lf sd w num v :
  snd (run_genetic_algorithm sample elapsed fuel number p lf sd w)
  <> WReturn num v.
Proof.
  unfold run_genetic_algorithm.
  destruct (GA.run sample elapsed fuel _ w sd) as [c|r c|e] eqn:Hr;
    cbn; try discriminate.
  exfalso. revert Hr. apply exec_never_returns. exact I.
Qed.

End WorkerFacts.

Lemma supervise_failure p lf prec e h reg secs rest :
  supervise p lf prec (mkPoll (GException e) h reg secs :: rest)
  = ([PoolTerminate; SupportError (exn_str e)], Failed).
Proof. reflexivity. Qed.


(** C7.  A worker whose GA run fails: the simulator raises
    [ValueError("bad model")] in the worker numbered [number].  The
    exception leaves [run_genetic_algorithm] as it was raised, [get] raises
    it again in the coordinator, and the coordinator terminates the pool and
    reports [str(e)], which is the same text whatever the worker's number:
    the report does not identify the failing worker. *)
Theorem worker_failure_report_lacks_worker_id
    (number : Z) (others : list worker_status) (h : list obj)
    (reg : gmap (option string) pyref) (secs : Q) (rest : list poll) :
  let failed :=
    snd (run_genetic_algorithm failing_sample (fun _ => 1%Q) 5 number
           example_params "GADMA.log" (Some ∅) empty_world) in
  failed = WRaise (Exn ValueError "bad model") /\
  pool_get (failed :: others) = GException (Exn ValueError "bad model") /\
  supervise example_params "GADMA.log" 3
            (mkPoll (pool_get (failed :: others)) h reg secs :: rest)
  = ([PoolTerminate; SupportError "bad model"], Failed).
Proof.
  intros failed.
  assert (Hf : failed = WRaise (Exn ValueError "bad model")).
  { apply worker_raises_unchanged; [reflexivity|lia]. }
  rewrite Hf. repeat split.
Qed.

(** ** The attribute that hides the method *)

Lemma getattr_best_model g :
  getattr g "best_model" = Ok (value_of_ref (best_model g)).
Proof. destruct g. vm_compute. reflexivity. Qed.

Lemma getattr_best_fitness_value g :
  getattr g "best_fitness_value" = Ok (VBound M_best_fitness_value).
Proof. destruct g. vm_compute. reflexivity. Qed.

Lemma call_best_model_fails g h :
  call_method g h "best_model"
  = Raise (Exn TypeError "object is not callable").
Proof.
  unfold call_method. rewrite getattr_best_model.
  now destruct (best_model g).
Qed.

Lemma call_best_fitness_value_fails g h :
  call_method g h "best_fitness_value"
  = Raise (Exn TypeError "object is not callable").
Proof.
  unfold call_method. rewrite getattr_best_fitness_value.
  cbn [mbind result_bind bind call]. unfold recursion_limit.
  cbn [invoke]. rewrite getattr_best_model.
  now destruct (best_model g).
Qed.

(** C10.  Once the first iteration of [GA.run] is done and line 140 has
    stored the copy of the model in the instance attribute [best_model],
    that attribute hides the method of the same name: the instance
    namespace holds a model object under ["best_model"], the class
    namespace holds the method, and lookup finds the object.  From then on
    [ga.best_model()] and [ga.best_fitness_value()] raise [TypeError], and
    the final expression of [run_genetic_algorithm] never evaluates to a
    result. *)
Theorem best_model_attribute_hides_method
    (sample : nat -> result (list Q * Q)) (elapsed : nat -> Q)
    (n : nat) (g : GA) (w : world)
    (sd : option (gmap (option string) pyref)) (c : cfg) :
  exec sample elapsed n (entry g w sd) = Running c ->
  (3 <= n)%nat ->
  (exists l,
      instance_dict (self c) !! "best_model"%string = Some (VRef l) /\
      class_dict !! "best_model"%string = Some M_best_model /\
      getattr (self c) "best_model" = Ok (VRef l)) /\
  (exists msg, call_method (self c) (heap (wld c)) "best_model"
               = Raise (Exn TypeError msg)) /\
  (exists msg, call_method (self c) (heap (wld c)) "best_fitness_value"
               = Raise (Exn TypeError msg)) /\
  (forall fuel number p lf sd' w' num v,
      snd (run_genetic_algorithm sample elapsed fuel number p lf sd' w')
      <> WReturn num v).
Proof.
  intros Hex Hn. split; [|split; [|split]].
  - pose proof (exec_line _ _ _ _ _ _ _ Hex) as [Hl Hwf].
    assert (Hb : valid (heap (wld c)) (best_model (self c))).
    { apply looping_best; [exact Hwf|]. unfold looping. rewrite Hl.
      do 3 (destruct n as [|n]; [lia|]). destruct n as [|n]; [now left|].
      right. change (line_at (S (S (S (S n)))))
        with (if Nat.even n then L150 else L151).
      destruct (Nat.even n); auto. }
    destruct Hb as (xs & f & Hv). apply view_Some in Hv as (l & v & Hb & _).
    exists l. split; [|split].
    + destruct (self c). cbn in Hb. subst. vm_compute. reflexivity.
    + vm_compute. reflexivity.
    + now rewrite getattr_best_model, Hb.
  - eexists. apply call_best_model_fails.
  - eexists. apply call_best_fitness_value_fails.
  - intros. apply worker_never_returns.
Qed.

Lemma report_ranks_by_ascending_fitness_witness :
  example_registry <> ∅ /\
  (forall k m, example_registry !! k = Some m -> valid example_heap m) /\
  exists ranking,
    print_best_solution_now 3700 example_heap example_registry example_params
                            "GADMA.log" 3 false
    = Ok [WriteTime "GADMA.log" (hms 3700) (negb (silence example_params));
          PrintSetOfModels "GADMA.log" ranking "Run number"
                           "All best logLL models:" (silence example_params)] /\
    Permutation ranking (map_to_list example_registry) /\
    StronglySorted (ranked_before example_heap) ranking.
Proof.
  assert (H1 : example_registry <> ∅).
  { intros E. apply (f_equal (fun m => m !! Some "w1"%string)) in E.
    vm_compute in E. discriminate. }
  assert (H2 : forall k m, example_registry !! k = Some m -> valid example_heap m).
  { intros k m Hk.
    assert (Hin : (k, m) ∈ map_to_list example_registry)
      by now apply elem_of_map_to_list.
    vm_compute in Hin. apply list_elem_of_In in Hin. cbn in Hin.
    destruct Hin as [E|[E|[E|[]]]]; injection E as <- <-;
      eexists _, _; vm_compute; reflexivity. }
  split; [exact H1|]. split; [exact H2|].
  exact (proj1 (proj2 (report_ranks_by_ascending_fitness 3700 example_heap
                         example_registry example_params "GADMA.log" 3 false))
               H1 H2).
Defined.

Lemma best_model_attribute_hides_method_witness :
  exec demo_sample demo_elapsed 5 (entry demo_engine empty_world (Some ∅))
  = Running (demo_cfg 5) /\
  (3 <= 5)%nat /\
  (exists l,
      instance_dict (self (demo_cfg 5)) !! "best_model"%string = Some (VRef l) /\
      class_dict !! "best_model"%string = Some M_best_model /\
      getattr (self (demo_cfg 5)) "best_model" = Ok (VRef l)) /\
  (exists msg, call_method (self (demo_cfg 5)) (heap (wld (demo_cfg 5))) "best_model"
               = Raise (Exn TypeError msg)) /\
  (exists msg, call_method (self (demo_cfg 5)) (heap (wld (demo_cfg 5)))
                           "best_fitness_value"
               = Raise (Exn TypeError msg)).
Proof.
  assert (H1 : exec demo_sample demo_elapsed 5
                    (entry demo_engine empty_world (Some ∅))
               = Running (demo_cfg 5)) by (vm_compute; reflexivity).
  assert (H2 : (3 <= 5)%nat) by lia.
  split; [exact H1|]. split; [exact H2|].
  destruct (best_model_attribute_hides_method demo_sample demo_elapsed 5
              demo_engine empty_world (Some ∅) (demo_cfg 5) H1 H2)
    as (K1 & K2 & K3 & _).
  auto.
Defined.

End Core_facts.

(* ===================================================================== *)
(** * Facts about fixing and unfixing                                     *)
(* ===================================================================== *)

Module Model_facts.
Import Py Model.

Lemma var_eqb_eq (a b : variable) : var_eqb a b = true <-> a = b.
Proof.
  unfold var_eqb. rewrite andb_true_iff, String.eqb_eq. split.
  - intros [Hn Hk]. destruct a as [na ka], b as [nb kb]. cbn in *.
    subst. now destruct ka, kb.
  - intros ->. split; [reflexivity|]. now destruct (var_kind b).
Qed.

Lemma is_member_false v m : is_member v m = false <-> ~ In v (variables m).
Proof.
  unfold is_member. rewrite <- not_true_iff_false, existsb_exists. split.
  - intros H Hin. apply H. exists v. split; [exact Hin|]. now apply var_eqb_eq.
  - intros H (u & Hin & Heq). apply var_eqb_eq in Heq. now subst.
Qed.

Lemma is_fixed_false v m :
  is_fixed v m = false <-> forall x, ~ In (v, x) (fixed_vars m).
Proof.
  unfold is_fixed. rewrite <- not_true_iff_false, existsb_exists. split.
  - intros H x Hin. apply H. exists (v, x). split; [exact Hin|].
    now apply var_eqb_eq.
  - intros H ([u x] & Hin & Heq). cbn in Heq. apply var_eqb_eq in Heq.
    subst. now apply (H x).
Qed.

(** C6.  [fix_variable(var, value)] raises [ValueError] whenever [var] is
    not among the model's variables, and [unfix_variable(var)] raises
    [ValueError] whenever [var] is not fixed in the model; in both cases
    the model is left as it was. *)
Theorem fix_unfix_reject_unknown_variable
    (v : variable) (x : fixed_value) (m : model) :
  (~ In v (variables m) ->
   exists msg, fix_variable v x m = (Raise (Exn ValueError msg), m)) /\
  ((forall y, ~ In (v, y) (fixed_vars m)) ->
   exists msg, unfix_variable v m = (Raise (Exn ValueError msg), m)).
Proof.
  split.
  - intros H. apply is_member_false in H. unfold fix_variable. rewrite H.
    eexists. reflexivity.
  - intros H. apply is_fixed_false in H. unfold unfix_variable. rewrite H.
    eexists. reflexivity.
Qed.

Lemma fix_unfix_reject_unknown_variable_witness :
  let nu1 := mkVar "nu1F" Continuous in
  let nu3 := mkVar "nu3" Continuous in
  let m := mkModel [nu1] [(nu1, Num 1)] in
  ~ In nu3 (variables m) /\
  (forall y, ~ In (nu3, y) (fixed_vars m)) /\
  (exists msg, fix_variable nu3 (Num 3) m = (Raise (Exn ValueError msg), m)) /\
  (exists msg, unfix_variable nu3 m = (Raise (Exn ValueError msg), m)).
Proof.
  intros nu1 nu3 m.
  assert (H1 : ~ In nu3 (variables m)).
  { cbn. intros [E|[]]. discriminate E. }
  assert (H2 : forall y, ~ In (nu3, y) (fixed_vars m)).
  { intros y. cbn. intros [E|[]]. discriminate E. }
  split; [exact H1|]. split; [exact H2|].
  destruct (fix_unfix_reject_unknown_variable nu3 (Num 3) m) as [K1 K2].
  split; [exact (K1 H1)|exact (K2 H2)].
Defined.

End Model_facts.

(* ===================================================================== *)
(** * Facts about the display precision                                   *)
(* ===================================================================== *)

Module Precision_facts.
Import Py Precision.
Local Open Scope R_scope.

Lemma ln10_pos : 0 < ln 10.
Proof. rewrite <- ln_1. apply ln_increasing; lra. Qed.

Lemma math_log_pos flog eps :
  0 < eps -> math_log flog eps 10 = Ok (flog eps 10).
Proof.
  intros H. unfold math_log.
  destruct (Rle_dec eps 0) as [Hle|_]; [lra|reflexivity].
Qed.

Lemma precision_pos flog eps :
  0 < eps ->
  precision flog eps = Ok (1 - int_of_R (flog eps 10%R))%Z /\
  ll_precision flog eps = Ok (1 - int_of_R (flog eps 10%R))%Z.
Proof.
  intros H. unfold precision, ll_precision. now rewrite math_log_pos.
Qed.

Lemma accurate_bounds delta flog eps :
  accurate delta flog -> 0 < eps ->
  log10 eps - delta <= flog eps 10 <= log10 eps + delta.
Proof.
  intros Hacc Hpos. specialize (Hacc eps Hpos). revert Hacc.
  unfold Rabs. destruct (Rcase_abs (flog eps 10 - log10 eps)); lra.
Qed.

Lemma accurate_exact_log delta : 0 <= delta -> accurate delta exact_log.
Proof.
  intros Hd x _. unfold exact_log, log10.
  replace (ln x / ln 10 - ln x / ln 10) with 0 by ring.
  now rewrite Rabs_R0.
Qed.

Lemma Zceil_IZR (k : Z) : Zceil (IZR k) = k.
Proof. apply Zceil_eq. lra. Qed.

Lemma int_of_R_nonneg x : 0 <= x -> int_of_R x = Zfloor x.
Proof.
  intros H. unfold int_of_R. destruct (Rle_dec 0 x); [reflexivity|contradiction].
Qed.

Lemma int_of_R_neg x : x < 0 -> int_of_R x = Zceil x.
Proof.
  intros H. unfold int_of_R. destruct (Rle_dec 0 x); [lra|reflexivity].
Qed.

Lemma int_of_R_IZR (k : Z) : int_of_R (IZR k) = k.
Proof.
  unfold int_of_R. destruct (Rle_dec 0 (IZR k)).
  - apply ZfloorZ.
  - apply Zceil_IZR.
Qed.

(** Truncation of a number between two consecutive integers. *)
Lemma int_of_R_between x (k : Z) :
  IZR k < x < IZR k + 1 ->
  ((0 <= k)%Z -> int_of_R x = k) /\ ((k < 0)%Z -> int_of_R x = (k + 1)%Z).
Proof.
  intros [Hlo Hhi]. split; intros Hk.
  - apply IZR_le in Hk. rewrite int_of_R_nonneg by lra.
    apply Zfloor_eq. lra.
  - assert (H1 : (k + 1 <= 0)%Z) by lia. apply IZR_le in H1.
    rewrite plus_IZR in H1. rewrite int_of_R_neg by lra.
    apply Zceil_eq. rewrite plus_IZR. lra.
Qed.

Lemma log10_increasing a b : 0 < a -> a < b -> log10 a < log10 b.
Proof.
  intros Ha Hab. pose proof ln10_pos as H10. unfold log10, Rdiv.
  apply Rmult_lt_compat_r; [now apply Rinv_0_lt_compat|].
  now apply ln_increasing.
Qed.

(** [10^(-7/4) < 1/25] and [1/18 < 10^(-5/4)]. *)
Lemma log10_of_a_25th : -7 / 4 < log10 (/ 25).
Proof.
  pose proof ln10_pos as H10. unfold log10. rewrite ln_Rinv by lra.
  assert (H : ln (25 * 25 * 25 * 25) < ln (10 * 10 * 10 * 10 * 10 * 10 * 10))
    by (apply ln_increasing; lra).
  rewrite !ln_mult in H by lra.
  apply Rmult_lt_reg_r with (ln 10); [exact H10|].
  unfold Rdiv. rewrite !Rmult_assoc, Rinv_l by lra. lra.
Qed.

Lemma log10_of_an_18th : log10 (/ 18) < -5 / 4.
Proof.
  pose proof ln10_pos as H10. unfold log10. rewrite ln_Rinv by lra.
  assert (H : ln (10 * 10 * 10 * 10 * 10) < ln (18 * 18 * 18 * 18))
    by (apply ln_increasing; lra).
  rewrite !ln_mult in H by lra.
  apply Rmult_lt_reg_r with (ln 10); [exact H10|].
  unfold Rdiv. rewrite !Rmult_assoc, Rinv_l by lra. lra.
Qed.

(** The decimal logarithm of the double [0.05] lies between -1.75 and
    -1.25. *)
Lemma log10_of_0_05 : 0 < double_0_05 /\ -7 / 4 < log10 double_0_05 < -5 / 4.
Proof.
  assert (Hb : / 25 < double_0_05 < / 18) by (unfold double_0_05; lra).
  destruct Hb as [Hlo Hhi].
  assert (Hpos : 0 < double_0_05) by lra.
  split; [exact Hpos|].
  pose proof log10_of_a_25th. pose proof log10_of_an_18th.
  pose proof (log10_increasing (/ 25) double_0_05).
  pose proof (log10_increasing double_0_05 (/ 18)).
  lra.
Qed.

(** C8, as stated, fails at [epsilon = 0.05].  Whatever the library's
    logarithm returns within a quarter of the decimal logarithm, the
    coordinator and the engine both compute 2; the documented formula
    gives 3. *)
Lemma precision_differs_from_floor_formula :
  documented_precision double_0_05 = 3%Z /\
  accurate (/ 4) exact_log /\
  forall flog, accurate (/ 4) flog ->
    precision flog double_0_05 = Ok 2%Z /\
    ll_precision flog double_0_05 = Ok 2%Z /\
    precision flog double_0_05 <> Ok (documented_precision double_0_05).
Proof.
  pose proof log10_of_0_05 as [Hpos [Hlo Hhi]].
  assert (Hf : documented_precision double_0_05 = 3%Z).
  { unfold documented_precision.
    replace (Zfloor (log10 double_0_05)) with (-2)%Z; [reflexivity|].
    symmetry. apply Zfloor_eq. lra. }
  split; [exact Hf|]. split; [apply accurate_exact_log; lra|].
  intros flog Hacc.
  pose proof (accurate_bounds _ _ _ Hacc Hpos) as [Hl Hu].
  destruct (precision_pos flog _ Hpos) as [Hp Hq].
  assert (Hi : int_of_R (flog double_0_05 10) = (-1)%Z).
  { apply (int_of_R_between _ (-2)); [lra|lia]. }
  rewrite Hp, Hq, Hi, Hf. repeat split. discriminate.
Qed.

(** C8, amended.  For every positive tolerance the coordinator and the
    engine compute the same precision, [1 - int(L)], where [L] is what
    [math.log(epsilon, 10)] returns and [int] truncates toward zero.
    Where the decimal logarithm of [epsilon] lies between two consecutive
    integers [k] and [k + 1], farther from both than the error [delta] of
    the library's logarithm, the precision is [1 - floor(log10(epsilon))]
    for [k >= 0] ([epsilon > 1]) and one less than that for [k < 0]
    ([epsilon < 1]). *)
Theorem precision_truncates_toward_zero
    (flog : R -> R -> R) (delta epsilon : R) :
  accurate delta flog -> 0 < epsilon ->
  precision flog epsilon = Ok (1 - int_of_R (flog epsilon 10%R))%Z /\
  ll_precision flog epsilon = precision flog epsilon /\
  forall k : Z,
    IZR k + delta < log10 epsilon < IZR k + 1 - delta ->
    ((0 <= k)%Z ->
     precision flog epsilon = Ok (documented_precision epsilon)) /\
    ((k < 0)%Z ->
     precision flog epsilon = Ok (documented_precision epsilon - 1)%Z).
Proof.
  intros Hacc Hpos.
  destruct (precision_pos flog _ Hpos) as [Hp Hq].
  split; [exact Hp|]. split; [now rewrite Hp, Hq|].
  intros k [Hlo Hhi].
  pose proof (accurate_bounds _ _ _ Hacc Hpos) as [Hl Hu].
  assert (Hd : 0 <= delta).
  { eapply Rle_trans; [apply Rabs_pos | apply (Hacc epsilon Hpos)]. }
  assert (Hf : Zfloor (log10 epsilon) = k) by (apply Zfloor_eq; lra).
  assert (Hb : IZR k < flog epsilon 10 < IZR k + 1) by lra.
  destruct (int_of_R_between _ _ Hb) as [H1 H2].
  rewrite Hp. unfold documented_precision. rewrite Hf.
  split; intros Hk.
  - now rewrite H1.
  - rewrite H2 by exact Hk. f_equal. lia.
Qed.

Lemma precision_truncates_toward_zero_witness :
  accurate (/ 4) exact_log /\ 0 < double_0_05 /\
  precision exact_log double_0_05
    = Ok (1 - int_of_R (exact_log double_0_05 10%R))%Z /\
  ll_precision exact_log double_0_05 = precision exact_log double_0_05 /\
  forall k : Z,
    IZR k + / 4 < log10 double_0_05 < IZR k + 1 - / 4 ->
    ((0 <= k)%Z ->
     precision exact_log double_0_05
       = Ok (documented_precision double_0_05)) /\
    ((k < 0)%Z ->
     precision exact_log double_0_05
       = Ok (documented_precision double_0_05 - 1)%Z).
Proof.
  assert (Ha : accurate (/ 4) exact_log) by (apply accurate_exact_log; lra).
  assert (Hp : 0 < double_0_05) by (unfold double_0_05; lra).
  split; [exact Ha|]. split; [exact Hp|].
  exact (precision_truncates_toward_zero exact_log (/ 4) double_0_05 Ha Hp).
Defined.

End Precision_facts.

(* ===================================================================== *)
(** * Facts about [run] in classes derived from [GA]                      *)
(* ===================================================================== *)

Module Derived_facts.
Import Py GA Derived GA_facts.

Section DispatchFacts.

Variable sample : nat -> result (list Q * Q).
Variable elapsed : nat -> Q.
Variable D : derived.

Local Abbreviation step := (Derived.step sample elapsed D).
Local Abbreviation exec := (Derived.exec sample elapsed D).
Local Abbreviation run := (Derived.run sample elapsed D).

(** No statement of [run] leads to line 158. *)
Lemma step_misses_the_return c c' :
  step c = Running c' -> at_line c' <> L158.
Proof.
  unfold Derived.step, GA.step. destruct (at_line c).
  - destruct (open_log (self c) (wld c)). now intros [= <-].
  - destruct (call_run_one_iteration _ _ _ _ _) as [[? ?]|?];
      [now intros [= <-] | discriminate].
  - destruct (update_best _ _ _) as [[[? ?] ?]|?];
      [now intros [= <-] | discriminate].
  - now intros [= <-].
  - destruct (call_run_one_iteration _ _ _ _ _) as [[? ?]|?];
      [now intros [= <-] | discriminate].
  - destruct (compare_and_update _ _ _) as [[[? ?] ?]|?];
      [now intros [= <-] | discriminate].
  - discriminate.
Qed.

Lemma step_returns_at_158_only c v c' :
  step c = Returned v c' -> at_line c = L158.
Proof.
  unfold Derived.step, GA.step. destruct (at_line c); try reflexivity.
  - now destruct (open_log (self c) (wld c)).
  - now destruct (call_run_one_iteration _ _ _ _ _) as [[? ?]|?].
  - now destruct (update_best _ _ _) as [[[? ?] ?]|?].
  - discriminate.
  - now destruct (call_run_one_iteration _ _ _ _ _) as [[? ?]|?].
  - now destruct (compare_and_update _ _ _) as [[[? ?] ?]|?].
Qed.

Lemma exec_misses_the_return n c0 :
  at_line c0 <> L158 ->
  (forall v c, exec n c0 <> Returned v c) /\
  (forall c, exec n c0 = Running c -> at_line c <> L158).
Proof.
  revert c0. induction n as [|n IH]; intros c0 H0.
  - split; [discriminate|]. now intros c [= <-].
  - cbn [Derived.exec]. destruct (step c0) as [c1|v1 c1|e] eqn:Hs.
    + apply IH. eapply step_misses_the_return; eauto.
    + apply step_returns_at_158_only in Hs. contradiction.
    + split; discriminate.
Qed.

(** A class that keeps [run_one_iteration] runs as [GA] does. *)
Lemma step_inherited c :
  def_run_one_iteration D = None -> step c = GA.step sample elapsed c.
Proof.
  intros H. unfold Derived.step, call_run_one_iteration. rewrite H.
  unfold GA.step. now destruct (at_line c).
Qed.

Lemma exec_inherited n c :
  def_run_one_iteration D = None -> exec n c = GA.exec sample elapsed n c.
Proof.
  intros H. revert c. induction n as [|n IH]; intros c; [reflexivity|].
  cbn [Derived.exec GA.exec]. rewrite step_inherited by exact H.
  destruct (GA.step sample elapsed c); [apply IH|reflexivity|reflexivity].
Qed.


End DispatchFacts.



End Derived_facts.

(* ===================================================================== *)
(** * More about the engine: the trajectory of a run                      *)
(* ===================================================================== *)

Module Trajectory_facts.
Import Py Py_facts GA GA_facts Trajectory.

Lemma open_log_frame g w :
  prefix (fst (open_log g w)) = prefix g /\
  output_dir (fst (open_log g w)) = output_dir g /\
  cur_iteration (fst (open_log g w)) = cur_iteration g /\
  first_iteration (fst (open_log g w)) = first_iteration g /\
  work_time (fst (open_log g w)) = work_time g /\
  model (fst (open_log g w)) = model g /\
  best_model (fst (open_log g w)) = best_model g /\
  log_file (fst (open_log g w)) = expected_log_file g /\
  heap (snd (open_log g w)) = heap w /\
  draws (snd (open_log g w)) = draws w /\
  log (snd (open_log g w)) = log w.
Proof.
  unfold open_log, expected_log_file.
  destruct (prefix g) eqn:E; cbn; rewrite ?E; repeat split; reflexivity.
Qed.

Section TrajectoryFacts.

Variable sample : nat -> result (list Q * Q).
Variable elapsed : nat -> Q.

Local Abbreviation step := (step sample elapsed).
Local Abbreviation exec := (exec sample elapsed).
Local Abbreviation run := (run sample elapsed).

(** ** The statements of [run], forwards *)

Lemma step_L125 c :
  at_line c = L125 ->
  step c = Running
    (mkCfg (fst (open_log (self c) (wld c)))
           (write_to_file (snd (open_log (self c) (wld c)))
              (LText (log_file (fst (open_log (self c) (wld c))))
                     "--Start random pipeline--"))
           (shared_dict c) L139).
Proof.
  intros Hpc. unfold GA.step. rewrite Hpc.
  now destruct (open_log (self c) (wld c)).
Qed.

Lemma step_L139 c xs f :
  at_line c = L139 -> sample (draws (wld c)) = Ok (xs, f) ->
  step c = Running
    (mkCfg (fst (iterated elapsed (self c) (wld c) xs f))
           (snd (iterated elapsed (self c) (wld c) xs f))
           (shared_dict c) L140).
Proof.
  intros Hpc Hs. unfold GA.step. rewrite Hpc.
  now rewrite (run_one_iteration_ok sample elapsed _ _ _ _ Hs).
Qed.

Lemma step_L140 c xs f :
  at_line c = L140 -> view (heap (wld c)) (model (self c)) = Some (xs, f) ->
  step c = Running
    (mkCfg (fst (fst (updated (self c) (wld c) (shared_dict c) xs f)))
           (snd (fst (updated (self c) (wld c) (shared_dict c) xs f)))
           (snd (updated (self c) (wld c) (shared_dict c) xs f)) L147).
Proof.
  intros Hpc Hv. unfold GA.step. rewrite Hpc.
  rewrite (update_best_ok _ _ _ _ _ Hv).
  now destruct (updated _ _ _ xs f) as [[? ?] ?].
Qed.

Lemma step_L147 c :
  at_line c = L147 ->
  step c = Running
    (mkCfg (set_cur_iteration (self c) (cur_iteration (self c) + 1))
           (wld c) (shared_dict c) L150).
Proof. intros Hpc. unfold GA.step. now rewrite Hpc. Qed.

Lemma step_L150 c xs f :
  at_line c = L150 -> sample (draws (wld c)) = Ok (xs, f) ->
  step c = Running
    (mkCfg (fst (iterated elapsed (self c) (wld c) xs f))
           (snd (iterated elapsed (self c) (wld c) xs f))
           (shared_dict c) L151).
Proof.
  intros Hpc Hs. unfold GA.step. rewrite Hpc.
  now rewrite (run_one_iteration_ok sample elapsed _ _ _ _ Hs).
Qed.

Lemma step_L151 c xb fb xm fm :
  at_line c = L151 ->
  view (heap (wld c)) (best_model (self c)) = Some (xb, fb) ->
  view (heap (wld c)) (model (self c)) = Some (xm, fm) ->
  step c = Running
    (if Qgtb fb fm
     then mkCfg (fst (fst (updated (self c) (wld c) (shared_dict c) xm fm)))
                (snd (fst (updated (self c) (wld c) (shared_dict c) xm fm)))
                (snd (updated (self c) (wld c) (shared_dict c) xm fm)) L150
     else mkCfg (self c) (wld c) (shared_dict c) L150).
Proof.
  intros Hpc Hb Hm. unfold GA.step. rewrite Hpc.
  rewrite (compare_and_update_eq _ _ _ _ _ _ _ Hb Hm).
  destruct (Qgtb fb fm); [|reflexivity].
  now destruct (updated _ _ _ xm fm) as [[? ?] ?].
Qed.

Lemma exec_first_pass g w sd xs f :
  sample (draws w) = Ok (xs, f) ->
  exec 4 (entry g w sd) = Running (first_pass elapsed g w sd xs f).
Proof.
  intros Hs.
  destruct (open_log_frame g w) as (_ & _ & _ & _ & _ & _ & _ & _ & _ & Hd & _).
  rewrite exec_S, step_L125 by reflexivity.
  rewrite exec_S, (step_L139 _ xs f); [|reflexivity|cbn; now rewrite Hd].
  rewrite exec_S, (step_L140 _ xs f); [|reflexivity|cbn; apply view_copy].
  rewrite exec_S, step_L147 by reflexivity.
  reflexivity.
Qed.

Lemma exec_loop_pass c xs f xb fb :
  at_line c = L150 ->
  sample (draws (wld c)) = Ok (xs, f) ->
  view (heap (wld c)) (best_model (self c)) = Some (xb, fb) ->
  exec 2 c = Running (loop_pass elapsed c xs f fb).
Proof.
  intros Hpc Hs Hb.
  rewrite exec_S, (step_L150 _ xs f) by assumption.
  rewrite exec_S, (step_L151 _ xb fb xs f).
  - unfold loop_pass. cbn [self wld shared_dict].
    now destruct (Qgtb fb f).
  - reflexivity.
  - cbn. eapply heap_le_view; [apply heap_le_copied|exact Hb].
  - cbn. apply view_copy.
Qed.

(** ** What one pass leaves behind *)

Lemma values_logged_app l1 l2 :
  values_logged (l1 ++ l2) = values_logged l1 ++ values_logged l2.
Proof.
  induction l1 as [|[f t|f i t v m] l1 IH]; cbn; [reflexivity|exact IH|].
  now rewrite IH.
Qed.

Lemma first_pass_facts g w sd xs f :
  let c := first_pass elapsed g w sd xs f in
  at_line c = L150 /\
  draws (wld c) = S (draws w) /\
  view (heap (wld c)) (best_model (self c)) = Some (xs, f) /\
  work_time (self c) = (work_time g + elapsed (draws w))%Q /\
  values_logged (log (wld c)) = values_logged (log w) ++ [(- f)%Q].
Proof.
  destruct (open_log_frame g w)
    as (_ & _ & _ & _ & Hwt & _ & _ & _ & _ & Hd & Hl).
  unfold first_pass. cbn [at_line wld self]. split; [reflexivity|].
  unfold updated, iterated.
  cbn [fst snd heap draws work_time log best_model set_best_model
       set_cur_iteration set_work_time set_model write_to_file].
  split; [|split; [|split]].
  - destruct sd; cbn [draws set_heap]; now rewrite Hd.
  - destruct sd; cbn [heap set_heap].
    + eapply heap_le_view; [apply heap_le_copied|apply view_copy].
    + apply view_copy.
  - now rewrite Hwt, Hd.
  - destruct sd; cbn [log set_heap];
      rewrite !values_logged_app, Hl; cbn; now rewrite app_nil_r.
Qed.

Lemma loop_pass_facts c xs f xb fb :
  view (heap (wld c)) (best_model (self c)) = Some (xb, fb) ->
  let c' := loop_pass elapsed c xs f fb in
  at_line c' = L150 /\
  draws (wld c') = S (draws (wld c)) /\
  view (heap (wld c')) (best_model (self c')) = challenge (Some (xb, fb)) (xs, f) /\
  work_time (self c') = (work_time (self c) + elapsed (draws (wld c)))%Q /\
  values_logged (log (wld c')) = values_logged (log (wld c)) ++ [(- f)%Q].
Proof.
  intros Hb. unfold loop_pass, challenge. cbn [snd].
  destruct (Qgtb fb f); unfold updated, iterated;
    cbn [at_line wld self fst snd heap draws work_time log best_model
         set_best_model set_work_time set_model].
  - split; [reflexivity|]. split; [|split; [|split]].
    + now destruct (shared_dict c).
    + destruct (shared_dict c); cbn [heap set_heap].
      * eapply heap_le_view; [apply heap_le_copied|apply view_copy].
      * apply view_copy.
    + reflexivity.
    + destruct (shared_dict c); cbn [log set_heap];
        rewrite values_logged_app; reflexivity.
  - split; [reflexivity|]. split; [reflexivity|]. split; [|split].
    + eapply heap_le_view; [apply heap_le_copied|exact Hb].
    + reflexivity.
    + rewrite values_logged_app. reflexivity.
Qed.

Lemma sample_drawn k :
  is_ok (sample k) = true ->
  sample k = Ok (fst (drawn sample k), snd (drawn sample k)).
Proof.
  unfold drawn. destruct (sample k) as [[xs f]|e]; [reflexivity|discriminate].
Qed.

(** The configuration at the head of the loop after iteration [i], for a
    simulator that does not raise on the first [i + 1] draws. *)
Lemma loop_head i g w sd :
  (forall k, (k <= i)%nat -> is_ok (sample (draws w + k)) = true) ->
  exists c,
    after_iteration sample elapsed i g w sd = Running c /\
    at_line c = L150 /\
    draws (wld c) = (draws w + S i)%nat /\
    view (heap (wld c)) (best_model (self c))
    = best_of (map (drawn sample) (seq (draws w) (S i))) /\
    work_time (self c) = total_time elapsed (work_time g) (seq (draws w) (S i)) /\
    values_logged (log (wld c))
    = values_logged (log w)
      ++ map (fun k => (- snd (drawn sample k))%Q) (seq (draws w) (S i)).
Proof.
  unfold after_iteration, GA.run.
  induction i as [|i IH]; intros Hok.
  - assert (H0 : is_ok (sample (draws w)) = true).
    { rewrite <- (Nat.add_0_r (draws w)). apply Hok. lia. }
    pose proof (sample_drawn _ H0) as Hs.
    exists (first_pass elapsed g w sd (fst (drawn sample (draws w)))
                       (snd (drawn sample (draws w)))).
    split; [now apply exec_first_pass|].
    destruct (first_pass_facts g w sd (fst (drawn sample (draws w)))
                (snd (drawn sample (draws w)))) as (H1 & H2 & H3 & H4 & H5).
    split; [exact H1|]. split; [rewrite H2; lia|].
    split; [|split].
    + rewrite H3. cbn. now destruct (drawn sample (draws w)).
    + exact H4.
    + exact H5.
  - destruct IH as (c & Hex & Hpc & Hd & Hb & Hwt & Hlog).
    { intros k Hk. apply Hok. lia. }
    pose proof (exec_line _ _ _ _ _ _ _ Hex) as [_ Hwf].
    assert (Hvalid : valid (heap (wld c)) (best_model (self c))).
    { unfold well_formed in Hwf. now rewrite Hpc in Hwf. }
    destruct Hvalid as (xb & fb & Hv).
    pose proof (sample_drawn (draws w + S i) (Hok (S i) (Nat.le_refl _))) as Hs.
    rewrite <- Hd in Hs at 1.
    set (xs := fst (drawn sample (draws w + S i))) in *.
    set (f := snd (drawn sample (draws w + S i))) in *.
    exists (loop_pass elapsed c xs f fb).
    replace (4 + 2 * S i)%nat with ((4 + 2 * i) + 2)%nat by lia.
    rewrite (exec_add sample elapsed (4 + 2 * i) 2), Hex.
    split; [now apply (exec_loop_pass c xs f xb fb)|].
    destruct (loop_pass_facts c xs f xb fb Hv) as (H1 & H2 & H3 & H4 & H5).
    split; [exact H1|]. split; [rewrite H2, Hd; lia|].
    rewrite (seq_S (S i) (draws w)), map_app.
    split; [|split].
    + rewrite H3. unfold best_of. rewrite fold_left_app, <- Hv.
      fold (best_of (map (drawn sample) (seq (draws w) (S i)))).
      rewrite <- Hb, Hv. cbn [map fold_left]. subst xs f.
      now destruct (drawn sample (draws w + S i)).
    + rewrite H4, Hwt, Hd. unfold total_time. rewrite fold_left_app. reflexivity.
    + rewrite H5, Hlog, map_app, <- app_assoc. reflexivity.
Qed.

(** ** The best model is the first minimum *)

Lemma best_of_snoc cands x : best_of (cands ++ [x]) = challenge (best_of cands) x.
Proof. unfold best_of. now rewrite fold_left_app. Qed.

Lemma best_of_first_minimum (cands : list (list Q * Q)) :
  cands <> [] ->
  exists k b,
    cands !! k = Some b /\ best_of cands = Some b /\
    (forall j c, cands !! j = Some c -> (snd b <= snd c)%Q) /\
    (forall j c, (j < k)%nat -> cands !! j = Some c -> (snd b < snd c)%Q).
Proof.
  induction cands as [|x cands IH] using rev_ind; [congruence|]. intros _.
  rewrite best_of_snoc.
  destruct cands as [|y cands'] eqn:E.
  - exists 0%nat, x. cbn. repeat split.
    + intros [|j] c Hj; [|destruct j; discriminate].
      injection Hj as <-. apply Qle_refl.
    + intros j c Hj. lia.
  - rewrite <- E in *. destruct IH as (k & b & Hk & Hb & Hle & Hlt).
    { rewrite E. discriminate. }
    rewrite Hb. unfold challenge.
    destruct (Qgtb (snd b) (snd x)) eqn:Hg.
    + apply Qgtb_true in Hg. exists (length cands), x. repeat split.
      * rewrite lookup_app_r by lia. now rewrite Nat.sub_diag.
      * intros j c Hj. apply lookup_app_Some in Hj as [Hj1|[Hlen Hj2]].
        -- apply Qlt_le_weak. eapply Qlt_le_trans; [exact Hg|].
           now apply (Hle j).
        -- destruct (j - length cands)%nat; [|destruct n; discriminate].
           injection Hj2 as <-. apply Qle_refl.
      * intros j c Hj Hc. rewrite lookup_app_l in Hc by exact Hj.
        eapply Qlt_le_trans; [exact Hg|]. now apply (Hle j).
    + apply Qgtb_false in Hg. exists k, b. repeat split.
      * now apply lookup_app_l_Some.
      * intros j c Hj. apply lookup_app_Some in Hj as [Hj1|[Hlen Hj2]].
        -- now apply (Hle j).
        -- destruct (j - length cands)%nat; [|destruct n; discriminate].
           now injection Hj2 as <-.
      * intros j c Hj Hc. apply (Hlt j c Hj).
        rewrite lookup_app_l in Hc; [exact Hc|].
        apply lookup_lt_Some in Hk. lia.
Qed.

Lemma lookup_drawn d n j :
  (j < n)%nat ->
  map (drawn sample) (seq d n) !! j = Some (drawn sample (d + j)).
Proof.
  intros Hj. rewrite list_lookup_fmap.
  now rewrite lookup_seq_lt by exact Hj.
Qed.

(** X1.  After iteration [i] the best model of the engine is, by value, the
    earliest candidate of least fitness among the [i + 1] candidates drawn
    so far: no candidate drawn so far has a lower fitness, and every
    candidate drawn before it has a strictly higher one. *)
Theorem best_model_is_first_minimum
    (i : nat) (g : GA) (w : world) (sd : option (gmap (option string) pyref)) :
  (forall k, (k <= i)%nat -> is_ok (sample (draws w + k)) = true) ->
  exists c k,
    after_iteration sample elapsed i g w sd = Running c /\
    (k <= i)%nat /\
    view (heap (wld c)) (best_model (self c))
    = Some (drawn sample (draws w + k)) /\
    (forall j, (j <= i)%nat ->
       (snd (drawn sample (draws w + k)) <= snd (drawn sample (draws w + j)))%Q) /\
    (forall j, (j < k)%nat ->
       (snd (drawn sample (draws w + k)) < snd (drawn sample (draws w + j)))%Q).
Proof.
  intros Hok.
  destruct (loop_head i g w sd Hok) as (c & Hex & _ & _ & Hb & _).
  destruct (best_of_first_minimum (map (drawn sample) (seq (draws w) (S i))))
    as (k & b & Hk & Hbest & Hle & Hlt); [discriminate|].
  assert (Hki : (k < S i)%nat).
  { apply lookup_lt_Some in Hk. now rewrite length_map, length_seq in Hk. }
  rewrite lookup_drawn in Hk by exact Hki. injection Hk as <-.
  exists c, k. split; [exact Hex|]. split; [lia|].
  split; [now rewrite Hb|]. split.
  - intros j Hj. apply (Hle j). apply lookup_drawn. lia.
  - intros j Hj. apply (Hlt j); [exact Hj|]. apply lookup_drawn. lia.
Qed.

(** X3.  After iteration [i] the fitness column of the log holds, after what
    was there at entry, the negated fitness of each of the [i + 1] candidates
    in the order they were drawn: one line for each iteration. *)
Theorem log_holds_negated_fitness_of_each_draw
    (i : nat) (g : GA) (w : world) (sd : option (gmap (option string) pyref)) :
  (forall k, (k <= i)%nat -> is_ok (sample (draws w + k)) = true) ->
  exists c,
    after_iteration sample elapsed i g w sd = Running c /\
    values_logged (log (wld c))
    = values_logged (log w)
      ++ map (fun k => (- snd (drawn sample k))%Q) (seq (draws w) (S i)).
Proof.
  intros Hok.
  destruct (loop_head i g w sd Hok) as (c & Hex & _ & _ & _ & _ & Hlog).
  now exists c.
Qed.

(** ** What the simulator raises *)

Lemma step_raised c e :
  at_line c = L139 \/ at_line c = L150 ->
  sample (draws (wld c)) = Raise e -> step c = Raised e.
Proof.
  intros Hpc Hs. unfold GA.step.
  destruct Hpc as [-> | ->];
    now rewrite (run_one_iteration_raise sample elapsed _ _ _ Hs).
Qed.

Lemma exec_raised_more a b c e :
  exec a c = Raised e -> exec (a + b) c = Raised e.
Proof. intros H. now rewrite exec_add, H. Qed.

(** X4.  An exception of the simulator leaves [run] as it was raised: if
    the first [m] draws succeed and the next one raises [e], then [run]
    raises [e] itself, as soon as it has had the fuel to reach that draw. *)
Theorem simulator_exception_leaves_run
    (m : nat) (g : GA) (w : world) (sd : option (gmap (option string) pyref))
    (e : exn) (fuel : nat) :
  (forall k, (k < m)%nat -> is_ok (sample (draws w + k)) = true) ->
  sample (draws w + m) = Raise e ->
  (2 * m + 3 <= fuel)%nat ->
  run fuel g w sd = Raised e.
Proof.
  intros Hok Hraise Hfuel. unfold GA.run.
  destruct m as [|m].
  - replace fuel with (2 + (fuel - 2))%nat by lia.
    apply exec_raised_more.
    rewrite exec_S, step_L125 by reflexivity.
    rewrite exec_S, (step_raised _ e); [reflexivity|now left|].
    cbn [wld].
    destruct (open_log_frame g w) as (_ & _ & _ & _ & _ & _ & _ & _ & _ & Hd & _).
    cbn. rewrite Hd. now rewrite Nat.add_0_r in Hraise.
  - destruct (loop_head m g w sd) as (c & Hex & Hpc & Hd & _).
    { intros k Hk. apply Hok. lia. }
    unfold after_iteration, GA.run in Hex.
    replace fuel with ((4 + 2 * m) + (1 + (fuel - (5 + 2 * m))))%nat by lia.
    rewrite exec_add, Hex.
    replace (1 + (fuel - (5 + 2 * m)))%nat with (S (fuel - (5 + 2 * m))) by lia.
    rewrite exec_S, (step_raised c e); [reflexivity|now right|].
    now rewrite Hd.
Qed.

(** ** The registry during a run *)

Lemma looping_line c :
  looping c <-> at_line c = L147 \/ at_line c = L150 \/ at_line c = L151.
Proof. reflexivity. Qed.

Lemma step_registry_ok key d c c' :
  well_formed c -> registry_ok key d c -> step c = Running c' ->
  registry_ok key d c'.
Proof.
  intros Hwf (Hkey & d0 & Hsd & Hother & Hentry) Hst.
  pose proof (step_spec sample elapsed c c' Hwf Hst) as Hsp.
  unfold registry_ok, looping in *.
  destruct (at_line c) eqn:Hpc.
  - subst c'. cbn [self wld shared_dict at_line].
    destruct (open_log_frame (self c) (wld c)) as (Hp & _).
    split; [congruence|]. exists d0. split; [exact Hsd|]. split; [exact Hother|].
    intros [H|[H|H]]; discriminate.
  - destruct Hsp as (xs & f & _ & ->). cbn [self wld shared_dict at_line].
    split; [exact Hkey|]. exists d0. split; [exact Hsd|]. split; [exact Hother|].
    intros [H|[H|H]]; discriminate.
  - destruct Hsp as (xs & f & _ & ->). rewrite Hsd. unfold updated.
    cbn [self wld shared_dict at_line fst snd prefix set_best_model heap
         set_heap best_model].
    split; [exact Hkey|]. eexists. split; [reflexivity|]. split.
    + intros k Hk. rewrite lookup_insert_ne by congruence. now apply Hother.
    + intros _. exists (Some (S (length (copied (heap (wld c)) xs f)))), xs, f.
      rewrite Hkey. split; [apply lookup_insert_eq|]. split.
      * apply view_copy.
      * eapply heap_le_view; [apply heap_le_copied|apply view_copy].
  - subst c'. cbn [self wld shared_dict at_line prefix set_cur_iteration
                   best_model].
    split; [exact Hkey|]. exists d0. split; [exact Hsd|]. split; [exact Hother|].
    intros _. apply Hentry. now left.
  - destruct Hsp as (xs & f & _ & ->).
    cbn [self wld shared_dict at_line fst snd iterated prefix set_work_time
         set_model best_model heap].
    split; [exact Hkey|]. exists d0. split; [exact Hsd|]. split; [exact Hother|].
    intros _. destruct Hentry as (e & ys & fy & He & Hve & Hvb); [now right; left|].
    exists e, ys, fy. split; [exact He|].
    split; (eapply heap_le_view; [apply heap_le_copied|]); assumption.
  - destruct Hsp as (xb & fb & xm & fm & _ & _ & [[_ ->] | [_ ->]]).
    + rewrite Hsd. unfold updated.
      cbn [self wld shared_dict at_line fst snd prefix set_best_model heap
           set_heap best_model].
      split; [exact Hkey|]. eexists. split; [reflexivity|]. split.
      * intros k Hk. rewrite lookup_insert_ne by congruence. now apply Hother.
      * intros _. exists (Some (S (length (copied (heap (wld c)) xm fm)))), xm, fm.
        rewrite Hkey. split; [apply lookup_insert_eq|]. split.
        -- apply view_copy.
        -- eapply heap_le_view; [apply heap_le_copied|apply view_copy].
    + cbn [self wld shared_dict at_line].
      split; [exact Hkey|]. exists d0. split; [exact Hsd|].
      split; [exact Hother|]. intros _. apply Hentry. now right; right.
  - destruct Hsp.
Qed.

Lemma exec_registry_ok n g w d c :
  exec n (entry g w (Some d)) = Running c -> registry_ok (prefix g) d c.
Proof.
  intros H.
  apply (exec_invariant sample elapsed (registry_ok (prefix g) d))
    in H as [_ H]; [exact H| |exact I|].
  - intros c1 c2 Hwf HP Hst. eapply step_registry_ok; eauto.
  - split; [reflexivity|]. exists d. split; [reflexivity|].
    split; [reflexivity|]. intros [H0|[H0|H0]]; discriminate.
Qed.

(** X5.  A run writes the registry under its own prefix only: at every
    configuration of the run, every other key of the registry holds what it
    held when [run] was entered. *)
Theorem run_writes_only_its_own_key
    (n : nat) (g : GA) (w : world) (d : gmap (option string) pyref) (c : cfg) :
  exec n (entry g w (Some d)) = Running c ->
  exists d',
    shared_dict c = Some d' /\
    forall k, k <> prefix g -> d' !! k = d !! k.
Proof.
  intros H. destruct (exec_registry_ok n g w d c H) as (_ & d' & Hsd & Ho & _).
  now exists d'.
Qed.

(** X6.  From line 147 on (the third statement), at every configuration of
    a run that was given a registry, the entry under the run's prefix is a
    complete candidate with the value of the engine's best model: the
    published copy never lags behind the best model. *)
Theorem registry_entry_has_value_of_best
    (n : nat) (g : GA) (w : world) (d : gmap (option string) pyref) (c : cfg) :
  exec n (entry g w (Some d)) = Running c ->
  (3 <= n)%nat ->
  exists d' e xs f,
    shared_dict c = Some d' /\
    d' !! prefix g = Some e /\
    view (heap (wld c)) e = Some (xs, f) /\
    view (heap (wld c)) (best_model (self c)) = Some (xs, f).
Proof.
  intros H Hn.
  destruct (exec_registry_ok n g w d c H) as (_ & d' & Hsd & _ & He).
  destruct He as (e & xs & f & H1 & H2 & H3).
  { apply exec_line in H as [Hl _]. unfold looping. rewrite Hl.
    do 3 (destruct n as [|n]; [lia|]). destruct n as [|n]; [now left|].
    right. change (line_at (S (S (S (S n)))))
      with (if Nat.even n then L150 else L151).
    destruct (Nat.even n); auto. }
  now exists d', e, xs, f.
Qed.

(** ** The heap during a run *)

(** X7.  A run only allocates: every object that was in the heap when [run]
    was entered is still there, unchanged, at every configuration of the
    run. *)
Theorem run_leaves_existing_objects_alone
    (n : nat) (g : GA) (w : world) (sd : option (gmap (option string) pyref))
    (c : cfg) (l : loc) (o : obj) :
  exec n (entry g w sd) = Running c ->
  heap w !! l = Some o ->
  heap (wld c) !! l = Some o.
Proof.
  intros H Hl.
  destruct (exec_first_iteration sample elapsed n g w sd c H) as (_ & _ & Hle & _).
  eapply heap_le_lookup; eauto.
Qed.

Lemma valid_cells h h' m :
  valid h m -> heap_le h h' ->
  cells h' m = cells h m /\ forall l, In l (cells h m) -> (l < length h)%nat.
Proof.
  intros (xs & f & Hv) Hle. apply view_Some in Hv as (l & v & -> & Hl & Hv).
  unfold cells. rewrite Hl, (heap_le_lookup _ _ _ _ Hle Hl). split; [reflexivity|].
  apply lookup_lt_Some in Hl, Hv. cbn. intros x [<-|[<-|[]]]; assumption.
Qed.

Lemma cells_fresh h h' xs f :
  heap_le (copied h xs f) h' ->
  cells h' (Some (S (length h))) = [S (length h); length h].
Proof.
  intros Hle. unfold cells.
  now rewrite (heap_le_lookup _ _ _ _ Hle (lookup_copied_model h xs f)).
Qed.

Lemma separate_fresh_best h h' mdl xs f :
  valid h mdl -> heap_le (copied h xs f) h' ->
  valid h' mdl /\ valid h' (Some (S (length h))) /\
  forall l, In l (cells h' (Some (S (length h)))) -> ~ In l (cells h' mdl).
Proof.
  intros Hm Hle.
  assert (Hle0 : heap_le h h') by (eapply heap_le_trans; [apply heap_le_copied|exact Hle]).
  destruct (valid_cells h h' mdl Hm Hle0) as [Hc Hlt].
  split; [eapply heap_le_valid; eauto|].
  split; [eapply heap_le_valid; [exact Hle|apply valid_copy]|].
  rewrite (cells_fresh h h' xs f Hle), Hc. cbn [In].
  intros l [<-|[<-|[]]] Hin; apply Hlt in Hin; lia.
Qed.

Lemma step_separate c c' :
  well_formed c -> separate c -> step c = Running c' -> separate c'.
Proof.
  intros Hwf Hsep Hst.
  pose proof (step_spec sample elapsed c c' Hwf Hst) as Hsp.
  unfold separate, looping in *. unfold well_formed in Hwf.
  destruct (at_line c) eqn:Hpc.
  - subst c'. intros [H|[H|H]]; discriminate.
  - destruct Hsp as (xs & f & _ & ->). intros [H|[H|H]]; discriminate.
  - destruct Hsp as (xs & f & Hv & ->). intros _. unfold updated.
    cbn [self wld fst snd model best_model set_best_model].
    destruct (shared_dict c); cbn [heap set_heap].
    + apply (separate_fresh_best _ _ _ xs f Hwf), heap_le_copied.
    + apply (separate_fresh_best _ _ _ xs f Hwf), heap_le_refl.
  - subst c'. intros _. cbn [self wld model best_model set_cur_iteration].
    apply Hsep. now left.
  - destruct Hsp as (xs & f & _ & ->). intros _.
    cbn [self wld fst snd iterated model best_model set_work_time set_model heap].
    destruct (valid_cells _ (copied (heap (wld c)) xs f) _ Hwf
                (heap_le_copied _ _ _)) as [Hc Hlt].
    split; [apply valid_copy|].
    split; [eapply heap_le_valid; [apply heap_le_copied|exact Hwf]|].
    rewrite Hc, cells_copy. cbn [In].
    intros l Hin [<-|[<-|[]]]; apply Hlt in Hin; lia.
  - destruct Hwf as [Hvb Hvm].
    destruct Hsp as (xb & fb & xm & fm & _ & _ & [[_ ->] | [_ ->]]).
    + intros _. unfold updated.
      cbn [self wld fst snd model best_model set_best_model].
      destruct (shared_dict c); cbn [heap set_heap].
      * apply (separate_fresh_best _ _ _ xm fm Hvm), heap_le_copied.
      * apply (separate_fresh_best _ _ _ xm fm Hvm), heap_le_refl.
    + intros _. cbn [self wld]. apply Hsep. now right; right.
  - destruct Hsp.
Qed.

(** X8.  Once the best model is assigned, the engine's current model and
    its best model are always two different objects made of different heap
    cells: a write into the current model cannot reach the best model. *)
Theorem model_and_best_model_never_alias
    (n : nat) (g : GA) (w : world) (sd : option (gmap (option string) pyref))
    (c : cfg) :
  exec n (entry g w sd) = Running c ->
  (3 <= n)%nat ->
  model (self c) <> best_model (self c) /\
  (forall l, In l (cells (heap (wld c)) (best_model (self c))) ->
             ~ In l (cells (heap (wld c)) (model (self c)))) /\
  (forall l o, In l (cells (heap (wld c)) (model (self c))) ->
     view (<[l := o]> (heap (wld c))) (best_model (self c))
     = view (heap (wld c)) (best_model (self c))).
Proof.
  intros H Hn.
  assert (Hloop : looping c).
  { pose proof (exec_line sample elapsed _ _ _ _ _ H) as [Hl _].
    unfold looping. rewrite Hl.
    do 3 (destruct n as [|n]; [lia|]). destruct n as [|n]; [now left|].
    right. change (line_at (S (S (S (S n)))))
      with (if Nat.even n then L150 else L151).
    destruct (Nat.even n); auto. }
  apply (exec_invariant sample elapsed separate) in H as [_ Hsep].
  - destruct (Hsep Hloop) as (Hvm & Hvb & Hdis).
    destruct Hvb as (xb & fb & Hvb). pose proof Hvb as Hvb'.
    apply view_Some in Hvb' as (lb & vb & Eb & Hlb & Hvlb).
    assert (Hcb : cells (heap (wld c)) (best_model (self c)) = [lb; vb]).
    { unfold cells. now rewrite Eb, Hlb. }
    split; [|split].
    + intros E. rewrite E in Hdis. apply (Hdis lb); rewrite Hcb; now left.
    + exact Hdis.
    + intros l o Hin. rewrite Hvb. rewrite Eb. apply view_Some.
      exists lb, vb. split; [reflexivity|].
      assert (l <> lb) by (intros ->; apply (Hdis lb); [rewrite Hcb; now left|exact Hin]).
      assert (l <> vb) by (intros ->; apply (Hdis vb); [rewrite Hcb; right; now left|exact Hin]).
      now rewrite !list_lookup_insert_ne by assumption.
  - intros c1 c2 Hwf HP Hst. eapply step_separate; eauto.
  - exact I.
  - intros [H0|[H0|H0]]; discriminate.
Qed.

(** ** The log during a run *)

Lemma expected_log_file_eq g g' :
  prefix g' = prefix g -> output_dir g' = output_dir g ->
  expected_log_file g' = expected_log_file g.
Proof. unfold expected_log_file. now intros -> ->. Qed.

Lemma step_logs_to g w c c' :
  well_formed c ->
  logs_to (output_dir g) (prefix g) (expected_log_file g) w c ->
  step c = Running c' ->
  logs_to (output_dir g) (prefix g) (expected_log_file g) w c'.
Proof.
  intros Hwf (Hp & Ho & added & Hlog & Hall & Hshape) Hst.
  pose proof (step_spec sample elapsed c c' Hwf Hst) as Hsp.
  unfold logs_to.
  destruct (at_line c) eqn:Hpc.
  - subst c'. cbn [self wld at_line].
    destruct (open_log_frame (self c) (wld c))
      as (Hp' & Ho' & _ & _ & _ & _ & _ & Hlf & _ & _ & Hl').
    rewrite Hlf, (expected_log_file_eq g (self c) Hp Ho).
    split; [congruence|]. split; [congruence|].
    exists [LText (expected_log_file g) "--Start random pipeline--"].
    cbn [log write_to_file]. rewrite Hl', Hlog, Hshape, app_nil_r.
    split; [reflexivity|]. split; [now repeat constructor|].
    split; [reflexivity|]. now exists [].
  - destruct Hsp as (xs & f & _ & ->). destruct Hshape as [Hlf [rest ->]].
    cbn [self wld at_line fst snd iterated prefix output_dir log_file log
         set_work_time set_model].
    split; [exact Hp|]. split; [exact Ho|]. eexists. split.
    + rewrite Hlog, <- app_assoc. reflexivity.
    + split; [|split; [exact Hlf|]].
      * apply Forall_app. split; [exact Hall|]. now repeat constructor.
      * eexists. reflexivity.
  - destruct Hsp as (xs & f & _ & ->). unfold updated.
    cbn [self wld at_line fst snd prefix output_dir log_file set_best_model].
    split; [exact Hp|]. split; [exact Ho|]. exists added.
    destruct (shared_dict c); cbn [log set_heap]; auto.
  - subst c'. cbn [self wld at_line prefix output_dir log_file set_cur_iteration].
    split; [exact Hp|]. split; [exact Ho|]. exists added. auto.
  - destruct Hsp as (xs & f & _ & ->). destruct Hshape as [Hlf [rest ->]].
    cbn [self wld at_line fst snd iterated prefix output_dir log_file log
         set_work_time set_model].
    split; [exact Hp|]. split; [exact Ho|]. eexists. split.
    + rewrite Hlog, <- app_assoc. reflexivity.
    + split; [|split; [exact Hlf|]].
      * apply Forall_app. split; [exact Hall|]. now repeat constructor.
      * eexists. reflexivity.
  - destruct Hsp as (xb & fb & xm & fm & _ & _ & [[_ ->] | [_ ->]]).
    + unfold updated.
      cbn [self wld at_line fst snd prefix output_dir log_file set_best_model].
      split; [exact Hp|]. split; [exact Ho|]. exists added.
      destruct (shared_dict c); cbn [log set_heap]; auto.
    + cbn [self wld at_line]. split; [exact Hp|]. split; [exact Ho|].
      exists added. auto.
  - destruct Hsp.
Qed.

(** X9.  Every line a run writes goes to one file, the engine's log file
    [output_dir/prefix/GADMA_GA.log] (no file when the engine has no
    prefix), and the first line it writes is the start line. *)
Theorem run_logs_to_one_file
    (n : nat) (g : GA) (w : world) (sd : option (gmap (option string) pyref))
    (c : cfg) :
  exec n (entry g w sd) = Running c ->
  (1 <= n)%nat ->
  log_file (self c) = expected_log_file g /\
  exists rest,
    log (wld c)
    = log w ++ LText (expected_log_file g) "--Start random pipeline--" :: rest /\
    Forall (fun l => file_of l = expected_log_file g) rest.
Proof.
  intros H Hn.
  pose proof (exec_line sample elapsed _ _ _ _ _ H) as [Hl _].
  apply (exec_invariant sample elapsed
           (logs_to (output_dir g) (prefix g) (expected_log_file g) w))
    in H as [_ (_ & _ & added & Hlog & Hall & Hshape)].
  - rewrite Hl in Hshape.
    assert (Hs : log_file (self c) = expected_log_file g /\
                 exists rest, added = LText (expected_log_file g)
                                            "--Start random pipeline--" :: rest).
    { destruct n as [|n]; [lia|]. do 3 (destruct n as [|n]; [exact Hshape|]).
      change (line_at (S (S (S (S n)))))
        with (if Nat.even n then L150 else L151) in Hshape.
      now destruct (Nat.even n). }
    destruct Hs as [Hlf [rest ->]]. split; [exact Hlf|]. exists rest.
    split; [exact Hlog|]. now inversion Hall.
  - intros c1 c2 Hwf HP Hst. eapply step_logs_to; eauto.
  - exact I.
  - split; [reflexivity|]. split; [reflexivity|]. exists [].
    cbn. rewrite app_nil_r. auto.
Qed.

End TrajectoryFacts.

(** ** The methods that stay reachable *)

(** X11.  [best_model] is the only function of the class that an instance
    attribute hides: every other function of the class is found through
    the instance, as a bound method. *)
Theorem every_other_method_is_reachable (g : GA) (name : string) (m : method) :
  class_dict !! name = Some m ->
  name <> "best_model"%string ->
  getattr g name = Ok (VBound m).
Proof.
  intros Hc Hne. unfold class_dict in Hc.
  apply elem_of_list_to_map_2, list_elem_of_In in Hc. cbn [In] in Hc.
  destruct g.
  destruct Hc as [E|[E|[E|[E|[E|[E|[E|[E|[E|[]]]]]]]]]]; injection E as <- <-;
    try (vm_compute; reflexivity).
  now contradiction Hne.
Qed.

(** ** The theorems at work on the sample run *)

Lemma best_model_is_first_minimum_witness :
  (forall k, (k <= 4)%nat -> is_ok (demo_sample (draws empty_world + k)) = true) /\
  exists c k,
    after_iteration demo_sample demo_elapsed 4 demo_engine empty_world None
    = Running c /\
    (k <= 4)%nat /\
    view (heap (wld c)) (best_model (self c))
    = Some (drawn demo_sample (draws empty_world + k)) /\
    (forall j, (j <= 4)%nat ->
       (snd (drawn demo_sample (draws empty_world + k))
        <= snd (drawn demo_sample (draws empty_world + j)))%Q) /\
    (forall j, (j < k)%nat ->
       (snd (drawn demo_sample (draws empty_world + k))
        < snd (drawn demo_sample (draws empty_world + j)))%Q).
Proof.
  assert (H : forall k, (k <= 4)%nat ->
                        is_ok (demo_sample (draws empty_world + k)) = true)
    by (intros k _; reflexivity).
  split; [exact H|].
  exact (best_model_is_first_minimum demo_sample demo_elapsed 4 demo_engine
           empty_world None H).
Defined.

Lemma log_holds_negated_fitness_of_each_draw_witness :
  (forall k, (k <= 2)%nat -> is_ok (demo_sample (draws empty_world + k)) = true) /\
  exists c,
    after_iteration demo_sample demo_elapsed 2 demo_engine empty_world None
    = Running c /\
    values_logged (log (wld c))
    = values_logged (log empty_world)
      ++ map (fun k => (- snd (drawn demo_sample k))%Q) (seq (draws empty_world) 3).
Proof.
  assert (H : forall k, (k <= 2)%nat ->
                        is_ok (demo_sample (draws empty_world + k)) = true)
    by (intros k _; reflexivity).
  split; [exact H|].
  exact (log_holds_negated_fitness_of_each_draw demo_sample demo_elapsed 2
           demo_engine empty_world None H).
Defined.

Lemma simulator_exception_leaves_run_witness :
  (forall k, (k < 2)%nat -> is_ok (flaky_sample (draws empty_world + k)) = true) /\
  flaky_sample (draws empty_world + 2) = Raise (Exn RuntimeError "simulation failed") /\
  (2 * 2 + 3 <= 9)%nat /\
  run flaky_sample demo_elapsed 9 demo_engine empty_world None
  = Raised (Exn RuntimeError "simulation failed").
Proof.
  assert (H1 : forall k, (k < 2)%nat ->
                         is_ok (flaky_sample (draws empty_world + k)) = true).
  { intros k Hk. destruct k as [|[|k]]; [reflexivity|reflexivity|lia]. }
  assert (H2 : flaky_sample (draws empty_world + 2)
               = Raise (Exn RuntimeError "simulation failed")) by reflexivity.
  assert (H3 : (2 * 2 + 3 <= 9)%nat) by lia.
  split; [exact H1|]. split; [exact H2|]. split; [exact H3|].
  exact (simulator_exception_leaves_run flaky_sample demo_elapsed 2 demo_engine
           empty_world None _ 9 H1 H2 H3).
Defined.

Lemma run_writes_only_its_own_key_witness :
  exec demo_sample demo_elapsed 10
       (entry demo_engine stocked_world
              (Some (<[Some "2"%string := Some 1%nat]> ∅)))
  = Running (stocked_cfg 10) /\
  exists d',
    shared_dict (stocked_cfg 10) = Some d' /\
    forall k, k <> prefix demo_engine ->
              d' !! k = (<[Some "2"%string := Some 1%nat]> ∅ : gmap _ pyref) !! k.
Proof.
  assert (H : exec demo_sample demo_elapsed 10
                   (entry demo_engine stocked_world
                          (Some (<[Some "2"%string := Some 1%nat]> ∅)))
              = Running (stocked_cfg 10)) by (vm_compute; reflexivity).
  split; [exact H|].
  exact (run_writes_only_its_own_key demo_sample demo_elapsed 10 demo_engine
           stocked_world _ (stocked_cfg 10) H).
Defined.

Lemma registry_entry_has_value_of_best_witness :
  exec demo_sample demo_elapsed 10
       (entry demo_engine stocked_world
              (Some (<[Some "2"%string := Some 1%nat]> ∅)))
  = Running (stocked_cfg 10) /\
  (3 <= 10)%nat /\
  exists d' e xs f,
    shared_dict (stocked_cfg 10) = Some d' /\
    d' !! prefix demo_engine = Some e /\
    view (heap (wld (stocked_cfg 10))) e = Some (xs, f) /\
    view (heap (wld (stocked_cfg 10))) (best_model (self (stocked_cfg 10)))
    = Some (xs, f).
Proof.
  assert (H : exec demo_sample demo_elapsed 10
                   (entry demo_engine stocked_world
                          (Some (<[Some "2"%string := Some 1%nat]> ∅)))
              = Running (stocked_cfg 10)) by (vm_compute; reflexivity).
  assert (H2 : (3 <= 10)%nat) by lia.
  split; [exact H|]. split; [exact H2|].
  exact (registry_entry_has_value_of_best demo_sample demo_elapsed 10
           demo_engine stocked_world _ (stocked_cfg 10) H H2).
Defined.

Lemma run_leaves_existing_objects_alone_witness :
  exec demo_sample demo_elapsed 10
       (entry demo_engine stocked_world
              (Some (<[Some "2"%string := Some 1%nat]> ∅)))
  = Running (stocked_cfg 10) /\
  heap stocked_world !! 1%nat = Some (OModel 0 4%Q) /\
  heap (wld (stocked_cfg 10)) !! 1%nat = Some (OModel 0 4%Q).
Proof.
  assert (H : exec demo_sample demo_elapsed 10
                   (entry demo_engine stocked_world
                          (Some (<[Some "2"%string := Some 1%nat]> ∅)))
              = Running (stocked_cfg 10)) by (vm_compute; reflexivity).
  assert (H2 : heap stocked_world !! 1%nat = Some (OModel 0 4%Q)) by reflexivity.
  split; [exact H|]. split; [exact H2|].
  exact (run_leaves_existing_objects_alone demo_sample demo_elapsed 10
           demo_engine stocked_world _ (stocked_cfg 10) 1%nat _ H H2).
Defined.

Lemma model_and_best_model_never_alias_witness :
  exec demo_sample demo_elapsed 9 (entry demo_engine empty_world (Some ∅))
  = Running (demo_cfg 9) /\
  (3 <= 9)%nat /\
  model (self (demo_cfg 9)) <> best_model (self (demo_cfg 9)) /\
  (forall l, In l (cells (heap (wld (demo_cfg 9))) (best_model (self (demo_cfg 9)))) ->
             ~ In l (cells (heap (wld (demo_cfg 9))) (model (self (demo_cfg 9))))) /\
  (forall l o, In l (cells (heap (wld (demo_cfg 9))) (model (self (demo_cfg 9)))) ->
     view (<[l := o]> (heap (wld (demo_cfg 9)))) (best_model (self (demo_cfg 9)))
     = view (heap (wld (demo_cfg 9))) (best_model (self (demo_cfg 9)))).
Proof.
  assert (H : exec demo_sample demo_elapsed 9
                   (entry demo_engine empty_world (Some ∅))
              = Running (demo_cfg 9)) by (vm_compute; reflexivity).
  assert (H2 : (3 <= 9)%nat) by lia.
  split; [exact H|]. split; [exact H2|].
  exact (model_and_best_model_never_alias demo_sample demo_elapsed 9
           demo_engine empty_world _ (demo_cfg 9) H H2).
Defined.

Lemma run_logs_to_one_file_witness :
  exec demo_sample demo_elapsed 9 (entry demo_engine empty_world (Some ∅))
  = Running (demo_cfg 9) /\
  (1 <= 9)%nat /\
  log_file (self (demo_cfg 9)) = expected_log_file demo_engine /\
  exists rest,
    log (wld (demo_cfg 9))
    = log empty_world
      ++ LText (expected_log_file demo_engine) "--Start random pipeline--" :: rest /\
    Forall (fun l => file_of l = expected_log_file demo_engine) rest.
Proof.
  assert (H : exec demo_sample demo_elapsed 9
                   (entry demo_engine empty_world (Some ∅))
              = Running (demo_cfg 9)) by (vm_compute; reflexivity).
  assert (H2 : (1 <= 9)%nat) by lia.
  split; [exact H|]. split; [exact H2|].
  exact (run_logs_to_one_file demo_sample demo_elapsed 9
           demo_engine empty_world _ (demo_cfg 9) H H2).
Defined.

Lemma every_other_method_is_reachable_witness :
  class_dict !! "mean_time"%string = Some M_mean_time /\
  "mean_time"%string <> "best_model"%string /\
  getattr demo_engine "mean_time" = Ok (VBound M_mean_time).
Proof.
  assert (H1 : class_dict !! "mean_time"%string = Some M_mean_time)
    by (vm_compute; reflexivity).
  assert (H2 : "mean_time"%string <> "best_model"%string) by discriminate.
  split; [exact H1|]. split; [exact H2|].
  exact (every_other_method_is_reachable demo_engine _ _ H1 H2).
Defined.

End Trajectory_facts.

(* ===================================================================== *)
(** * More about the coordinator                                          *)
(* ===================================================================== *)

Module Pool_facts.
Import Py Py_facts GA GA_facts Core Core_facts Pool.

(** ** Ties in the ranking *)

Lemma key_is_above {A} (q : Q) (x y : Q * A) :
  key_is q x = true -> (fst x < fst y)%Q -> key_is q y = false.
Proof.
  unfold key_is. intros Hx Hlt. apply Qeq_bool_iff in Hx.
  destruct (Qeq_bool (fst y) q) eqn:E; [|reflexivity].
  apply Qeq_bool_iff in E. rewrite Hx, E in Hlt.
  now apply Qlt_irrefl in Hlt.
Qed.

Lemma filter_above {A} (q : Q) (x : Q * A) (l : list (Q * A)) :
  key_is q x = true -> Forall (fun y => (fst x < fst y)%Q) l ->
  List.filter (key_is q) l = [].
Proof.
  intros Hx Hall. induction Hall as [|y l Hy _ IH]; [reflexivity|].
  cbn. now rewrite (key_is_above q x y Hx Hy).
Qed.

Lemma insert_by_key_filter {A} (q : Q) (x : Q * A) (l : list (Q * A)) :
  StronglySorted key_le l ->
  List.filter (key_is q) (insert_by_key x l)
  = List.filter (key_is q) l ++ (if key_is q x then [x] else []).
Proof.
  induction l as [|y l IH]; intros Hs.
  - cbn. now destruct (key_is q x).
  - inversion Hs as [|? ? Hs' Hall]; subst. cbn [insert_by_key].
    destruct (Qltb (fst x) (fst y)) eqn:E.
    + apply Qltb_true in E. cbn [List.filter].
      destruct (key_is q x) eqn:Hx; [|now rewrite app_nil_r].
      assert (Hnil : List.filter (key_is q) (y :: l) = []).
      { apply (filter_above q x); [exact Hx|]. constructor; [exact E|].
        eapply Forall_impl; [exact Hall|]. intros z Hz. unfold key_le in Hz.
        eapply Qlt_le_trans; eauto. }
      cbn [List.filter] in Hnil. now rewrite Hnil.
    + cbn [List.filter]. rewrite (IH Hs').
      now destruct (key_is q y).
Qed.

Lemma sort_by_key_filter_acc {A} (q : Q) (l acc : list (Q * A)) :
  StronglySorted key_le acc ->
  List.filter (key_is q) (fold_left (fun a x => insert_by_key x a) l acc)
  = List.filter (key_is q) acc ++ List.filter (key_is q) l.
Proof.
  revert acc. induction l as [|x l IH]; intros acc Hs; cbn [fold_left].
  - cbn. now rewrite app_nil_r.
  - rewrite IH by now apply insert_by_key_sorted.
    rewrite (insert_by_key_filter q x acc Hs), <- app_assoc. f_equal.
    cbn [List.filter]. now destruct (key_is q x).
Qed.

Lemma sort_by_key_stable {A} (q : Q) (l : list (Q * A)) :
  List.filter (key_is q) (sort_by_key l) = List.filter (key_is q) l.
Proof. apply (sort_by_key_filter_acc q l []). constructor. Qed.

Lemma mapM_decorate_inv h xs ks :
  mapM (decorate h) xs = Ok ks ->
  map snd ks = xs /\ Forall (keyed h) ks.
Proof.
  revert ks. induction xs as [|x xs IH]; intros ks.
  - intros H. change (Ok [] = Ok ks) in H. injection H as <-.
    split; [reflexivity|constructor].
  - cbn [mapM].
    destruct (mapM (decorate h) xs) as [ks'|e'] eqn:Hm.
    + unfold decorate.
      destruct (get_fitness_func_value h (snd x)) as [f|e] eqn:Hf;
        [|cbn; discriminate].
      intros H. change (Ok ((f, x) :: ks') = Ok ks) in H. injection H as <-.
      destruct (IH ks' eq_refl) as [H1 H2]. split.
      * cbn. now rewrite H1.
      * constructor; [exact Hf|exact H2].
    + destruct (decorate h x); cbn; discriminate.
Qed.

Lemma filter_keyed h q (ks : list (Q * (option string * pyref))) :
  Forall (keyed h) ks ->
  List.filter (has_fitness h q) (map snd ks)
  = map snd (List.filter (key_is q) ks).
Proof.
  induction 1 as [|kx ks Hk _ IH]; [reflexivity|].
  cbn [map List.filter]. unfold has_fitness at 1. unfold keyed in Hk.
  rewrite Hk. fold (key_is q kx). rewrite IH.
  now destruct (key_is q kx).
Qed.

Lemma sorted_keeps_ties
    (h : list obj) (xs ys : list (option string * pyref)) (q : Q) :
  sorted h xs = Ok ys ->
  List.filter (has_fitness h q) ys = List.filter (has_fitness h q) xs.
Proof.
  unfold sorted. destruct (mapM (decorate h) xs) as [ks|e] eqn:Hm;
    [|cbn; discriminate].
  intros H. change (Ok (map snd (sort_by_key ks)) = Ok ys) in H.
  injection H as <-.
  destruct (mapM_decorate_inv h xs ks Hm) as [Hsnd Hk].
  rewrite <- Hsnd.
  rewrite (filter_keyed h q ks Hk), <- (sort_by_key_stable q ks).
  apply filter_keyed.
  rewrite Forall_forall in *. intros kx Hin. apply Hk.
  now rewrite (sort_by_key_perm ks) in Hin.
Qed.

(** X12.  The ranking of a progress report keeps ties in order: when the
    registry is not empty and its entries are complete candidates,
    [print_best_solution_now] prints a ranking in which the entries of any
    one fitness stand in the order in which line 80 lists the snapshot. *)
Theorem ranking_keeps_order_of_ties
    (s : Q) (h : list obj) (d : gmap (option string) pyref) (p : params)
    (log_file : string) (precision : Z) (draw_model : bool) (q : Q) :
  d <> ∅ ->
  (forall k m, d !! k = Some m -> valid h m) ->
  exists ranking,
    print_best_solution_now s h d p log_file precision draw_model
    = Ok [WriteTime log_file (hms s) (negb (silence p));
          PrintSetOfModels log_file ranking "Run number"
                           "All best logLL models:" (silence p)] /\
    List.filter (has_fitness h q) ranking
    = List.filter (has_fitness h q) (map_to_list d).
Proof.
  intros Hne Hval. unfold print_best_solution_now.
  case_decide as E; [contradiction|].
  destruct (sorted_ranks h (map_to_list d)) as (ys & Hs & _ & _).
  { rewrite Forall_forall. intros [k m] Hin. cbn.
    apply elem_of_map_to_list in Hin. eauto. }
  rewrite Hs. exists ys. split; [reflexivity|].
  now apply sorted_keeps_ties.
Qed.

(** ** The head of the ranking *)

(** X13.  The first line of a progress report is a global best: when the
    registry is not empty and its entries are complete candidates, the
    ranking is not empty and no entry of the registry has a lower fitness
    than its first element. *)
Theorem report_leads_with_global_best
    (s : Q) (h : list obj) (d : gmap (option string) pyref) (p : params)
    (log_file : string) (precision : Z) (draw_model : bool) :
  d <> ∅ ->
  (forall k m, d !! k = Some m -> valid h m) ->
  exists first rest,
    print_best_solution_now s h d p log_file precision draw_model
    = Ok [WriteTime log_file (hms s) (negb (silence p));
          PrintSetOfModels log_file (first :: rest) "Run number"
                           "All best logLL models:" (silence p)] /\
    length (first :: rest) = size d /\
    forall k m, d !! k = Some m -> ranked_before h first (k, m).
Proof.
  intros Hne Hval. unfold print_best_solution_now.
  case_decide as E; [contradiction|].
  destruct (sorted_ranks h (map_to_list d)) as (ys & Hs & Hp & Hr).
  { rewrite Forall_forall. intros [k m] Hin. cbn.
    apply elem_of_map_to_list in Hin. eauto. }
  rewrite Hs. destruct ys as [|first rest].
  - apply Permutation_nil in Hp. now apply map_to_list_empty_iff in Hp.
  - exists first, rest. split; [reflexivity|]. split.
    + rewrite (Permutation_length Hp). apply length_map_to_list.
    + intros k m Hk.
      assert (Hin : (k, m) ∈ first :: rest).
      { rewrite Hp. now apply elem_of_map_to_list. }
      inversion Hr as [|? ? _ Hall]; subst.
      apply elem_of_cons in Hin as [<-|Hin].
      * destruct (Hval k m Hk) as (xs & f & Hv).
        exists f, f. cbn. rewrite (view_fitness _ _ _ _ Hv).
        repeat split. apply Qle_refl.
      * rewrite Forall_forall in Hall. now apply Hall.
Qed.

(** ** A report that fails *)

Lemma decorate_raises h x e :
  decorate h x = Raise e -> exn_cls e = AttributeError.
Proof.
  unfold decorate, get_fitness_func_value.
  destruct (snd x) as [l|]; [|cbn; now intros [= <-]].
  destruct (h !! l) as [[ys|v f]|]; cbn; intros H; try discriminate;
    now injection H as <-.
Qed.

Lemma mapM_decorate_raises h xs e :
  mapM (decorate h) xs = Raise e -> exn_cls e = AttributeError.
Proof.
  induction xs as [|x xs IH]; [discriminate|].
  cbn [mapM].
  destruct (mapM (decorate h) xs) as [ks'|e'] eqn:Hm.
  - destruct (decorate h x) as [kx|e0] eqn:Hd; cbn; [discriminate|].
    intros [= <-]. now apply (decorate_raises h x).
  - destruct (decorate h x) as [kx|e0] eqn:Hd; cbn.
    + intros [= <-]. now apply IH.
    + intros [= <-]. now apply (decorate_raises h x).
Qed.

Lemma mapM_decorate_all_ok h xs ks :
  mapM (decorate h) xs = Ok ks ->
  forall x, In x xs -> is_ok (get_fitness_func_value h (snd x)) = true.
Proof.
  intros Hm x Hin. destruct (mapM_decorate_inv h xs ks Hm) as [Hsnd Hk].
  rewrite <- Hsnd in Hin. apply in_map_iff in Hin as (kx & <- & Hin).
  apply list_elem_of_In in Hin. rewrite Forall_forall in Hk.
  specialize (Hk kx Hin). unfold keyed in Hk. now rewrite Hk.
Qed.

Lemma report_raises s h d p lf prec dm k m :
  d !! k = Some m -> is_ok (get_fitness_func_value h m) = false ->
  exists e, exn_cls e = AttributeError /\
            print_best_solution_now s h d p lf prec dm = Raise e.
Proof.
  intros Hk Hbad. unfold print_best_solution_now.
  case_decide as E; [rewrite E in Hk; now rewrite lookup_empty in Hk|].
  unfold sorted.
  destruct (mapM (decorate h) (map_to_list d)) as [ks|e] eqn:Hm.
  - exfalso.
    assert (Hin : In (k, m) (map_to_list d)).
    { apply list_elem_of_In. now apply elem_of_map_to_list. }
    pose proof (mapM_decorate_all_ok h _ ks Hm (k, m) Hin) as Hok.
    cbn in Hok. congruence.
  - exists e. split; [now apply (mapM_decorate_raises h (map_to_list d))|].
    reflexivity.
Qed.

(** X14.  An exception raised while a progress report is made is handled by
    none of the clauses of [main]: when a wait times out, or the results
    arrive, and the registry holds an entry that is not a model, the report
    raises [AttributeError], nothing is printed, the pool is not
    terminated and [support.error] is not called. *)
Theorem failing_report_escapes_main
    (p : params) (log_file : string) (precision : Z) (q : poll)
    (rest : list poll) (k : option string) (m : pyref) :
  ends_loop q = false \/ (exists rs, got q = GResults rs) ->
  registry q !! k = Some m ->
  is_ok (get_fitness_func_value (poll_heap q) m) = false ->
  exists e,
    exn_cls e = AttributeError /\
    supervise p log_file precision (q :: rest) = ([], Crashed e).
Proof.
  intros Hq Hk Hbad.
  destruct (report_raises (seconds q) (poll_heap q) (registry q) p log_file
              precision (matplotlib_available p) k m Hk Hbad) as (e & He & Hr).
  exists e. split; [exact He|]. cbn [supervise]. unfold ends_loop in Hq.
  destruct (got q) eqn:Hg.
  - now rewrite Hr.
  - destruct Hq as [Hq|[rs Hq]]; discriminate.
  - destruct Hq as [Hq|[rs Hq]]; discriminate.
  - now rewrite Hr.
Qed.

(** ** The supervisory loop *)

Lemma report_has_no_terminate s h d p lf prec dm evs :
  print_best_solution_now s h d p lf prec dm = Ok evs ->
  ~ In PoolTerminate evs /\ (forall msg, ~ In (SupportError msg) evs).
Proof.
  unfold print_best_solution_now. case_decide.
  - intros [= <-]. split; [|intros msg]; intros [].
  - destruct (sorted h (map_to_list d)) as [ys|e]; cbn; [|discriminate].
    intros [= <-]. split; [|intros msg]; intros [H0|[H0|[]]]; discriminate.
Qed.

Lemma closing_has_no_terminate p lf :
  ~ In PoolTerminate (closing p lf) /\
  (forall msg, ~ In (SupportError msg) (closing p lf)).
Proof.
  unfold closing.
  destruct (test p), (theta_is_None p), (resumed_with_other_structure p);
    cbn; split; try intros msg; intuition discriminate.
Qed.

(** X15.  [main] terminates the pool exactly when a task failed or the user
    interrupted the run, and in those cases only does it call
    [support.error]: a run that completes, that is still waiting or that
    crashed in a report never touches the pool. *)
Theorem pool_terminated_iff_failed_or_cancelled
    (p : params) (log_file : string) (precision : Z) (polls : list poll) :
  (In PoolTerminate (fst (supervise p log_file precision polls)) <->
   snd (supervise p log_file precision polls) = Failed \/
   snd (supervise p log_file precision polls) = Cancelled) /\
  ((exists msg, In (SupportError msg) (fst (supervise p log_file precision polls))) <->
   snd (supervise p log_file precision polls) = Failed \/
   snd (supervise p log_file precision polls) = Cancelled).
Proof.
  induction polls as [|q polls IH]; cbn [supervise].
  - cbn. split; split; try (intros [H|H]; discriminate); try tauto.
    intros [msg []].
  - destruct (got q) eqn:Hg.
    + destruct (print_best_solution_now _ _ _ _ _ _ _) as [evs|e] eqn:Hr.
      * destruct (supervise p log_file precision polls) as [evs' x] eqn:Hs.
        cbn [fst snd] in *.
        destruct (report_has_no_terminate _ _ _ _ _ _ _ _ Hr) as [Hn1 Hn2].
        destruct IH as [IH1 IH2]. split.
        -- rewrite in_app_iff. rewrite <- IH1. tauto.
        -- rewrite <- IH2. split.
           ++ intros [msg Hin]. apply in_app_iff in Hin as [Hin|Hin].
              ** now apply Hn2 in Hin.
              ** now exists msg.
           ++ intros [msg Hin]. exists msg. apply in_app_iff. now right.
      * cbn. split; split; try (intros [H|H]; discriminate); try tauto.
        intros [msg []].
    + cbn. split; split; auto. intros _. eexists. right. now left.
    + cbn. split; split; auto. intros _. eexists. right. now left.
    + destruct (print_best_solution_now _ _ _ _ _ _ _) as [evs|e0] eqn:Hr.
      * cbn [fst snd].
        destruct (report_has_no_terminate _ _ _ _ _ _ _ _ Hr) as [Hn1 Hn2].
        destruct (closing_has_no_terminate p log_file) as [Hc1 Hc2].
        split; split; try (intros [H|H]; discriminate).
        -- intros Hin. apply in_app_iff in Hin as [Hin|Hin]; contradiction.
        -- intros [msg Hin]. apply in_app_iff in Hin as [Hin|Hin].
           ++ now apply Hn2 in Hin.
           ++ now apply Hc2 in Hin.
      * cbn. split; split; try (intros [H|H]; discriminate); try tauto.
        intros [msg []].
Qed.

(** X16.  The supervisory loop stops at the first wait that is not a
    timeout: whatever would have come after it has no effect on what
    [main] prints or on how it ends. *)
Theorem nothing_follows_the_end_of_the_loop
    (p : params) (log_file : string) (precision : Z)
    (before : list poll) (q : poll) (after : list poll) :
  ends_loop q = true ->
  supervise p log_file precision (before ++ q :: after)
  = supervise p log_file precision (before ++ [q]).
Proof.
  intros Hq. induction before as [|b before IH].
  - cbn [app supervise]. unfold ends_loop in Hq.
    destruct (got q); [discriminate|reflexivity|reflexivity|reflexivity].
  - cbn [app supervise]. now rewrite IH.
Qed.

(** ** The workers *)

Section WorkerMore.

Variable sample : nat -> result (list Q * Q).
Variable elapsed : nat -> Q.

(** X17.  A worker logs that it starts and nothing else: because [GA.run]
    does not return, the line that announces the end of the genetic
    algorithm is never written, whatever the worker's number, the
    simulator and the time the worker is given. *)
Theorem worker_logs_only_its_start
    (fuel : nat) (number : Z) (p : params) (log_file : string)
    (sd : option (gmap (option string) pyref)) (w : world) :
  fst (run_genetic_algorithm sample elapsed fuel number p log_file sd w)
  = [WriteLog log_file ("Run genetic algorithm number " ++ pretty number)
              (negb (silence p))] /\
  forall text out,
    In (WriteLog log_file text out)
       (fst (run_genetic_algorithm sample elapsed fuel number p log_file sd w)) ->
    text <> ("Finish genetic algorithm number " ++ pretty number)%string.
Proof.
  assert (H : fst (run_genetic_algorithm sample elapsed fuel number p log_file sd w)
              = [WriteLog log_file ("Run genetic algorithm number " ++ pretty number)
                          (negb (silence p))]).
  { unfold run_genetic_algorithm.
    destruct (GA.run sample elapsed fuel _ w sd) as [c|r c|e] eqn:Hr;
      [reflexivity| |reflexivity].
    exfalso. revert Hr. apply exec_never_returns. exact I. }
  split; [exact H|]. rewrite H. intros text out [Hin|[]].
  injection Hin as <- _. discriminate.
Qed.

End WorkerMore.

(** X18.  [main] numbers its tasks 1, 2, ..., [repeats], and tasks with
    different numbers get different registry keys: no two workers of a pool
    write the same entry of the registry. *)
Theorem workers_have_distinct_keys (p : params) :
  length (task_numbers p) = repeats p /\
  (forall n, In n (task_numbers p) <-> 1 <= n <= Z.of_nat (repeats p)) /\
  (forall a b, worker_key a = worker_key b -> a = b) /\
  NoDup (map worker_key (task_numbers p)).
Proof.
  assert (Hinj : forall a b, worker_key a = worker_key b -> a = b).
  { intros a b [= H]. now apply (inj pretty) in H. }
  assert (Hin : forall n, In n (task_numbers p) <-> 1 <= n <= Z.of_nat (repeats p)).
  { intros n. unfold task_numbers. rewrite in_map_iff. split.
    - intros (i & <- & Hi). apply in_seq in Hi. lia.
    - intros Hn. exists (Z.to_nat (n - 1)). split; [lia|]. apply in_seq. lia. }
  split; [|split; [exact Hin|split; [exact Hinj|]]].
  - unfold task_numbers. now rewrite length_map, length_seq.
  - unfold task_numbers.
    assert (I1 : Inj (=) (=) worker_key) by (intros a b; apply Hinj).
    assert (I2 : Inj (=) (=) (fun i : nat => Z.of_nat i + 1))
      by (intros a b H; lia).
    apply (NoDup_fmap_2 worker_key), (NoDup_fmap_2 (fun i : nat => Z.of_nat i + 1)).
    apply NoDup_seq.
Qed.

(** ** The theorems at work on examples *)

Lemma ranking_keeps_order_of_ties_witness :
  tied_registry <> ∅ /\
  (forall k m, tied_registry !! k = Some m -> valid tied_heap m) /\
  exists ranking,
    print_best_solution_now 60 tied_heap tied_registry example_params
                            "GADMA.log" 3 false
    = Ok [WriteTime "GADMA.log" (hms 60) (negb (silence example_params));
          PrintSetOfModels "GADMA.log" ranking "Run number"
                           "All best logLL models:" (silence example_params)] /\
    List.filter (has_fitness tied_heap 5) ranking
    = List.filter (has_fitness tied_heap 5) (map_to_list tied_registry).
Proof.
  assert (H1 : tied_registry <> ∅).
  { intros E. apply (f_equal (fun m => m !! Some "a"%string)) in E.
    vm_compute in E. discriminate. }
  assert (H2 : forall k m, tied_registry !! k = Some m -> valid tied_heap m).
  { intros k m Hk.
    assert (Hin : (k, m) ∈ map_to_list tied_registry)
      by now apply elem_of_map_to_list.
    vm_compute in Hin. apply list_elem_of_In in Hin. cbn in Hin.
    destruct Hin as [E|[E|[E|[]]]]; injection E as <- <-;
      eexists _, _; vm_compute; reflexivity. }
  split; [exact H1|]. split; [exact H2|].
  exact (ranking_keeps_order_of_ties 60 tied_heap tied_registry
           example_params "GADMA.log" 3 false 5%Q H1 H2).
Defined.

Lemma report_leads_with_global_best_witness :
  example_registry <> ∅ /\
  (forall k m, example_registry !! k = Some m -> valid example_heap m) /\
  exists first rest,
    print_best_solution_now 60 example_heap example_registry example_params
                            "GADMA.log" 3 false
    = Ok [WriteTime "GADMA.log" (hms 60) (negb (silence example_params));
          PrintSetOfModels "GADMA.log" (first :: rest) "Run number"
                           "All best logLL models:" (silence example_params)] /\
    length (first :: rest) = size example_registry /\
    forall k m, example_registry !! k = Some m ->
                ranked_before example_heap first (k, m).
Proof.
  assert (H1 : example_registry <> ∅).
  { intros E. apply (f_equal (fun m => m !! Some "w1"%string)) in E.
    vm_compute in E. discriminate. }
  assert (H2 : forall k m, example_registry !! k = Some m -> valid example_heap m).
  { intros k m Hk.
    assert (Hin : (k, m) ∈ map_to_list example_registry)
      by now apply elem_of_map_to_list.
    vm_compute in Hin. apply list_elem_of_In in Hin. cbn in Hin.
    destruct Hin as [E|[E|[E|[]]]]; injection E as <- <-;
      eexists _, _; vm_compute; reflexivity. }
  split; [exact H1|]. split; [exact H2|].
  exact (report_leads_with_global_best 60 example_heap example_registry
           example_params "GADMA.log" 3 false H1 H2).
Defined.

Lemma failing_report_escapes_main_witness :
  (ends_loop broken_poll = false \/ exists rs, got broken_poll = GResults rs) /\
  registry broken_poll !! Some "1"%string = Some None /\
  is_ok (get_fitness_func_value (poll_heap broken_poll) None) = false /\
  exists e,
    exn_cls e = AttributeError /\
    supervise example_params "GADMA.log" 3 [broken_poll; failed_poll]
    = ([], Crashed e).
Proof.
  assert (H1 : ends_loop broken_poll = false \/ exists rs, got broken_poll = GResults rs)
    by (left; reflexivity).
  assert (H2 : registry broken_poll !! Some "1"%string = Some None)
    by (vm_compute; reflexivity).
  assert (H3 : is_ok (get_fitness_func_value (poll_heap broken_poll) None) = false)
    by reflexivity.
  split; [exact H1|]. split; [exact H2|]. split; [exact H3|].
  exact (failing_report_escapes_main example_params "GADMA.log" 3 broken_poll
           [failed_poll] _ _ H1 H2 H3).
Defined.

Lemma nothing_follows_the_end_of_the_loop_witness :
  ends_loop failed_poll = true /\
  supervise example_params "GADMA.log" 3 ([] ++ failed_poll :: [broken_poll])
  = supervise example_params "GADMA.log" 3 ([] ++ [failed_poll]).
Proof.
  assert (H : ends_loop failed_poll = true) by reflexivity.
  split; [exact H|].
  exact (nothing_follows_the_end_of_the_loop example_params "GADMA.log" 3
           [] failed_poll [broken_poll] H).
Defined.

End Pool_facts.

(* ===================================================================== *)
(** * More about the runtime: time stamps                                 *)
(* ===================================================================== *)

Module Time_facts.
Import Py.

Lemma Qfloor_unique (x : Q) (z : Z) :
  (inject_Z z <= x)%Q -> (x < inject_Z (z + 1))%Q -> Qfloor x = z.
Proof.
  intros Hlo Hhi.
  assert (H1 : z < Qfloor x + 1).
  { rewrite Zlt_Qlt. eapply Qle_lt_trans; [exact Hlo|apply Qlt_floor]. }
  assert (H2 : Qfloor x < z + 1).
  { rewrite Zlt_Qlt. eapply Qle_lt_trans; [apply Qfloor_le|exact Hhi]. }
  lia.
Qed.

Lemma inject_Z_pos (k : Z) : 0 < k -> (0 < inject_Z k)%Q.
Proof. intros H. change (inject_Z 0 < inject_Z k)%Q. now rewrite <- Zlt_Qlt. Qed.

Lemma inject_Z_nonneg (k : Z) : 0 <= k -> (0 <= inject_Z k)%Q.
Proof. intros H. change (inject_Z 0 <= inject_Z k)%Q. now rewrite <- Zle_Qle. Qed.

Lemma Qfloor_div (x : Q) (n k : Z) :
  0 < k -> (inject_Z n <= x)%Q -> (x < inject_Z (n + 1))%Q ->
  Qfloor (x / inject_Z k) = n / k.
Proof.
  intros Hk Hlo Hhi.
  assert (Hk' : (0 < inject_Z k)%Q) by (now apply inject_Z_pos).
  apply Qfloor_unique.
  - apply Qle_shift_div_l; [exact Hk'|]. rewrite <- inject_Z_mult.
    eapply Qle_trans; [|exact Hlo]. rewrite <- Zle_Qle.
    pose proof (Z.mul_div_le n k Hk). lia.
  - apply Qlt_shift_div_r; [exact Hk'|]. rewrite <- inject_Z_mult.
    eapply Qlt_le_trans; [exact Hhi|]. rewrite <- Zle_Qle.
    pose proof (Z.mul_succ_div_gt n k Hk). lia.
Qed.

Lemma inject_Z_sub_mul (n k z : Z) :
  inject_Z (n - k * z) = (inject_Z n + - (inject_Z k * inject_Z z))%Q.
Proof.
  unfold Z.sub. rewrite inject_Z_plus, <- inject_Z_mult.
  now rewrite inject_Z_opp.
Qed.

Lemma between_sub (x : Q) (n k z : Z) :
  (inject_Z n <= x)%Q -> (x < inject_Z (n + 1))%Q ->
  (inject_Z (n - k * z) <= x - inject_Z k * inject_Z z)%Q /\
  (x - inject_Z k * inject_Z z < inject_Z (n - k * z + 1))%Q.
Proof.
  intros Hlo Hhi. rewrite inject_Z_plus in *. rewrite inject_Z_sub_mul.
  change (inject_Z 1) with 1%Q in *. unfold Qminus.
  set (a := (inject_Z k * inject_Z z)%Q) in *. split; Lqa.lra.
Qed.

Lemma int_of_Q_nonneg (q : Q) : (0 <= q)%Q -> int_of_Q q = Qfloor q.
Proof.
  intros H. unfold int_of_Q. apply Qle_bool_iff in H. now rewrite H.
Qed.

Lemma nonneg_div (x : Q) (k : Z) :
  0 < k -> (0 <= x)%Q -> (0 <= x / inject_Z k)%Q.
Proof.
  intros Hk Hx. apply Qle_shift_div_l.
  - now apply inject_Z_pos.
  - now rewrite Qmult_0_l.
Qed.

(** X19.  The time stamp of a log line and of a progress report is the
    hours, minutes and seconds of the elapsed time: for a non-negative
    number of seconds the three fields are not negative, minutes and seconds
    are below 60, and together they make up the whole seconds elapsed. *)
Theorem hms_decomposes_elapsed_time (s : Q) :
  (0 <= s)%Q ->
  hms s = (Qfloor s / 3600, Qfloor s mod 3600 / 60, Qfloor s mod 60) /\
  0 <= fst (fst (hms s)) /\
  0 <= snd (fst (hms s)) < 60 /\
  0 <= snd (hms s) < 60 /\
  fst (fst (hms s)) * 3600 + snd (fst (hms s)) * 60 + snd (hms s) = Qfloor s.
Proof.
  intros Hs.
  set (n := Qfloor s).
  assert (Hn : 0 <= n).
  { unfold n. change 0 with (Qfloor 0). now apply Qfloor_resp_le. }
  assert (Hlo : (inject_Z n <= s)%Q) by apply Qfloor_le.
  assert (Hhi : (s < inject_Z (n + 1))%Q) by apply Qlt_floor.
  assert (E : hms s = (n / 3600, n mod 3600 / 60, n mod 60)).
  { unfold hms, Qfmod.
    change 3600%Q with (inject_Z 3600). change 60%Q with (inject_Z 60).
    rewrite (Qfloor_div s n 3600), (Qfloor_div s n 60) by (assumption || lia).
    destruct (between_sub s n 3600 (n / 3600) Hlo Hhi) as [Hlo1 Hhi1].
    destruct (between_sub s n 60 (n / 60) Hlo Hhi) as [Hlo2 Hhi2].
    rewrite <- (Z.mod_eq n 3600) in Hlo1, Hhi1 by lia.
    rewrite <- (Z.mod_eq n 60) in Hlo2, Hhi2 by lia.
    assert (H1 : (0 <= s - inject_Z 3600 * inject_Z (n / 3600))%Q).
    { eapply Qle_trans; [|exact Hlo1]. apply inject_Z_nonneg.
      apply Z.mod_pos_bound. lia. }
    assert (H2 : (0 <= s - inject_Z 60 * inject_Z (n / 60))%Q).
    { eapply Qle_trans; [|exact Hlo2]. apply inject_Z_nonneg.
      apply Z.mod_pos_bound. lia. }
    rewrite (int_of_Q_nonneg (s / inject_Z 3600)) by (apply nonneg_div; [lia|exact Hs]).
    rewrite (int_of_Q_nonneg (_ / inject_Z 60)) by (apply nonneg_div; [lia|exact H1]).
    rewrite (int_of_Q_nonneg _ H2).
    rewrite (Qfloor_div s n 3600) by (assumption || lia).
    rewrite (Qfloor_div _ (n mod 3600) 60) by (assumption || lia).
    rewrite (Qfloor_unique _ (n mod 60) Hlo2 Hhi2).
    reflexivity. }
  rewrite E. cbn [fst snd]. split; [reflexivity|].
  repeat split; Z.to_euclidean_division_equations; lia.
Qed.

Lemma hms_decomposes_elapsed_time_witness :
  (0 <= 7451 # 2)%Q /\
  hms (7451 # 2) = (1, 2, 5).
Proof.
  assert (H : (0 <= 7451 # 2)%Q) by (vm_compute; discriminate).
  split; [exact H|].
  rewrite (proj1 (hms_decomposes_elapsed_time (7451 # 2) H)).
  reflexivity.
Defined.

End Time_facts.

(* ===================================================================== *)
(** * More about the display precision                                    *)
(* ===================================================================== *)

Module Precision_more.
Import Py Precision Precision_facts.
Local Open Scope R_scope.

Lemma Zfloor_within x (k : Z) :
  IZR k - 1 < x < IZR k + 1 -> Zfloor x = (k - 1)%Z \/ Zfloor x = k.
Proof.
  intros [Hlo Hhi]. destruct (Rle_dec (IZR k) x) as [H|H].
  - right. apply Zfloor_eq. lra.
  - left. apply Zfloor_eq. rewrite minus_IZR. lra.
Qed.

Lemma Zceil_within x (k : Z) :
  IZR k - 1 < x < IZR k + 1 -> Zceil x = k \/ Zceil x = (k + 1)%Z.
Proof.
  intros [Hlo Hhi]. destruct (Rle_dec x (IZR k)) as [H|H].
  - left. apply Zceil_eq. lra.
  - right. apply Zceil_eq. rewrite plus_IZR. lra.
Qed.

Lemma log10_1000 : log10 double_1000 = 3.
Proof.
  pose proof ln10_pos as H10. unfold log10, double_1000.
  replace 1000 with (10 * (10 * 10)) by lra.
  rewrite !ln_mult by lra. field. lra.
Qed.

(** X20.  Near a power of ten the precision depends on how the library
    rounds the logarithm.  Where the decimal logarithm of the tolerance is
    within the error [delta] of an integer [k], or anywhere less than
    [1 - delta] from it, the engine and the coordinator compute the same
    number: [1 - k] or [2 - k] for [k > 0], 1 for [k = 0], and [1 - k] or
    [- k] for [k < 0]. *)
Theorem precision_near_powers_of_ten
    (flog : R -> R -> R) (delta epsilon : R) (k : Z) :
  accurate delta flog -> 0 < epsilon ->
  Rabs (log10 epsilon - IZR k) + delta < 1 ->
  exists p : Z,
    precision flog epsilon = Ok p /\
    ll_precision flog epsilon = Ok p /\
    ((0 < k)%Z -> p = (1 - k)%Z \/ p = (2 - k)%Z) /\
    (k = 0%Z -> p = 1%Z) /\
    ((k < 0)%Z -> p = (1 - k)%Z \/ p = (- k)%Z).
Proof.
  intros Hacc Hpos Hnear.
  destruct (precision_pos flog _ Hpos) as [Hp Hq].
  pose proof (accurate_bounds _ _ _ Hacc Hpos) as [Hl Hu].
  assert (Hb : IZR k - 1 < flog epsilon 10 < IZR k + 1).
  { revert Hnear. unfold Rabs.
    destruct (Rcase_abs (log10 epsilon - IZR k)); lra. }
  exists (1 - int_of_R (flog epsilon 10%R))%Z.
  split; [exact Hp|]. split; [exact Hq|].
  split; [|split]; intros Hk.
  - assert (Hk1 : (1 <= k)%Z) by lia. apply IZR_le in Hk1.
    rewrite int_of_R_nonneg by lra.
    destruct (Zfloor_within _ _ Hb) as [Hf|Hf]; rewrite Hf; lia.
  - subst k. unfold int_of_R.
    destruct (Rle_dec 0 (flog epsilon 10)) as [H0|H0].
    + replace (Zfloor (flog epsilon 10)) with 0%Z; [reflexivity|].
      symmetry. apply Zfloor_eq. lra.
    + replace (Zceil (flog epsilon 10)) with 0%Z; [reflexivity|].
      symmetry. apply Zceil_eq. lra.
  - assert (Hk1 : (k + 1 <= 0)%Z) by lia. apply IZR_le in Hk1.
    rewrite plus_IZR in Hk1. rewrite int_of_R_neg by lra.
    destruct (Zceil_within _ _ Hb) as [Hc|Hc]; rewrite Hc; lia.
Qed.

Lemma precision_near_powers_of_ten_witness :
  accurate (/ 1000) exact_log /\ 0 < double_1000 /\
  Rabs (log10 double_1000 - 3) + / 1000 < 1 /\
  exists p : Z,
    precision exact_log double_1000 = Ok p /\
    ll_precision exact_log double_1000 = Ok p /\
    ((0 < 3)%Z -> p = (1 - 3)%Z \/ p = (2 - 3)%Z) /\
    (3%Z = 0%Z -> p = 1%Z) /\
    ((3 < 0)%Z -> p = (1 - 3)%Z \/ p = (- 3)%Z).
Proof.
  assert (Ha : accurate (/ 1000) exact_log) by (apply accurate_exact_log; lra).
  assert (Hp : 0 < double_1000) by (unfold double_1000; lra).
  assert (Hn : Rabs (log10 double_1000 - 3) + / 1000 < 1).
  { rewrite log10_1000. replace (3 - 3) with 0 by ring. rewrite Rabs_R0. lra. }
  split; [exact Ha|]. split; [exact Hp|]. split; [exact Hn|].
  exact (precision_near_powers_of_ten exact_log (/ 1000) double_1000 3 Ha Hp Hn).
Defined.

(** Both values occur at 1000: an exact logarithm gives -2, one that is a
    unit in the last place too low gives -1. *)
Lemma precision_of_1000 :
  accurate (/ 1000) low_log /\
  precision exact_log double_1000 = Ok (-2)%Z /\
  precision low_log double_1000 = Ok (-1)%Z /\
  ll_precision low_log double_1000 = Ok (-1)%Z.
Proof.
  pose proof log10_1000 as H3. pose proof ln10_pos as H10.
  assert (Hp : 0 < double_1000) by (unfold double_1000; lra).
  split; [|split; [|split]].
  - intros x _. unfold low_log, log10.
    replace (ln x / ln 10 - / 2251799813685248 - ln x / ln 10)
      with (- / 2251799813685248) by ring.
    rewrite Rabs_Ropp, Rabs_pos_eq; lra.
  - destruct (precision_pos exact_log _ Hp) as [-> _].
    change (exact_log double_1000 10) with (log10 double_1000).
    rewrite H3. change 3 with (IZR 3). now rewrite int_of_R_IZR.
  - destruct (precision_pos low_log _ Hp) as [-> _].
    unfold low_log. change (ln double_1000 / ln 10) with (log10 double_1000).
    rewrite H3, int_of_R_nonneg by lra.
    replace (Zfloor (3 - / 2251799813685248)) with 2%Z; [reflexivity|].
    symmetry. apply Zfloor_eq. lra.
  - destruct (precision_pos low_log _ Hp) as [_ ->].
    unfold low_log. change (ln double_1000 / ln 10) with (log10 double_1000).
    rewrite H3, int_of_R_nonneg by lra.
    replace (Zfloor (3 - / 2251799813685248)) with 2%Z; [reflexivity|].
    symmetry. apply Zfloor_eq. lra.
Qed.

End Precision_more.
